(** * AT24C256 I2C EEPROM driver and settings store

    A shallow embedding of [Examples/i2c_eeprom_AT24C256/main.c]: the paged
    EEPROM driver ([eeprom_wait_ready], [_eeprom_write_page_raw],
    [eeprom_write_buffer], [eeprom_read_buffer], the single-byte
    operations), the settings record persisted at address 0, the bus scan
    and [main]; with them the colour words and patterns of the WS2812
    example and the count written by the PIO blink example.

    Conventions.
    - C integers are [Z]; [uint16_t] and [uint8_t] arithmetic has its
      wrap-around written out.  [size_t] byte counts are [nat]: the code
      only ever subtracts a chunk from a count at least as large.
    - The I2C bus is an interface ([Bus]); every call of the SDK's
      [i2c_write_blocking], [i2c_read_blocking] and [sleep_us] is appended
      to a log, in program order.
    - [eeprom_wait_ready] is a loop with no bound.  It is embedded with a
      poll budget [fuel]: [None] means the budget ran out while the device
      was still refusing to acknowledge.
    - [printf] output is modelled for the grid of the bus scan only. *)

From Stdlib Require Import String Ascii.
From Stdlib Require Import ZArith List Lia Bool.
Import ListNotations.
Local Open Scope list_scope.
Local Open Scope Z_scope.

(** ** Constants of the source *)

Definition AT24C256_ADDRESS : Z := 0x50.
Definition PAGE_SIZE : Z := 64.
Definition SETTINGS_ADDR : Z := 0x0000.
Definition MAGIC_CODE : Z := 0xA55A.

(** [sizeof(SystemSettings)]: 4 + 2 + 32 + 1 + 1 bytes, no padding (the
    source comment states 40 bytes). *)
Definition sizeof_SystemSettings : nat := 40.

(** SDK constant returned by the blocking I2C calls when the addressed
    device does not acknowledge (-1 in the SDK's error codes); the driver
    only tests the sign of a return value. *)
Definition PICO_ERROR_GENERIC : Z := -1.

(** ** The bus and its log *)

Inductive event : Type :=
| I2cWrite (i2c_addr : Z) (src : list Z) (nostop : bool) (ret : Z)
| I2cRead (i2c_addr : Z) (len : nat) (nostop : bool) (ret : Z)
| SleepUs (us : Z).

(** What sits behind the SDK calls.  [bus_write] answers with the SDK's
    return value (bytes written, or a negative error); [bus_read] answers
    with the bytes received, or [None] when the address is not
    acknowledged. *)
Class Bus (D : Type) : Type := {
  bus_write : D -> Z -> list Z -> bool -> D * Z;
  bus_read : D -> Z -> nat -> bool -> D * option (list Z)
}.

Record world (D : Type) : Type := mkWorld {
  dev : D;
  log : list event
}.
Arguments mkWorld {D} _ _.
Arguments dev {D} _.
Arguments log {D} _.

(** The first [length src] cells of [dst] replaced by [src]. *)
Definition overwrite (dst src : list Z) : list Z :=
  src ++ skipn (length src) dst.

Definition is_transaction (e : event) : bool :=
  match e with
  | I2cWrite _ _ _ _ | I2cRead _ _ _ _ => true
  | SleepUs _ => false
  end.

(** The bus transactions of a log, sleeps left out. *)
Definition bus_transactions (l : list event) : list event :=
  filter is_transaction l.

(** A write transaction that carries data after its two address bytes, read
    back as the memory address on the wire and the data bytes. *)
Definition data_write (e : event) : option (Z * list Z) :=
  match e with
  | I2cWrite _ (hi :: lo :: d :: ds) _ _ => Some (hi * 256 + lo, d :: ds)
  | _ => None
  end.

Fixpoint data_writes (l : list event) : list (Z * list Z) :=
  match l with
  | [] => []
  | e :: l' =>
      match data_write e with
      | Some seg => seg :: data_writes l'
      | None => data_writes l'
      end
  end.

(** ** The settings record *)

Record SystemSettings : Type := mkSettings {
  motor_offset : Z;
  magic : Z;
  wifi_ssid : list Z;
  volume : Z;
  checksum : Z
}.

Definition byte_of (v : Z) (i : Z) : Z := Z.land (Z.shiftr v (8 * i)) 0xFF.

(** A list cut or zero-filled to exactly [n] cells. *)
Definition fit (n : nat) (l : list Z) : list Z := firstn n (l ++ repeat 0 n).

(** The object representation [(uint8_t * )&s] on the little-endian
    target: [motor_offset] at 0, [magic] at 4, [wifi_ssid] at 6, [volume]
    at 38, [checksum] at 39. *)
Definition bytes_of_settings (s : SystemSettings) : list Z :=
  [byte_of (motor_offset s) 0; byte_of (motor_offset s) 1;
   byte_of (motor_offset s) 2; byte_of (motor_offset s) 3;
   byte_of (magic s) 0; byte_of (magic s) 1]
  ++ fit 32 (wifi_ssid s) ++ [volume s; checksum s].

Definition int32_of (u : Z) : Z :=
  if u <? 2 ^ 31 then u else u - 2 ^ 32.

Definition settings_of_bytes (b : list Z) : SystemSettings :=
  {| motor_offset :=
       int32_of (nth 0 b 0 + 256 * nth 1 b 0 + 65536 * nth 2 b 0
                 + 16777216 * nth 3 b 0);
     magic := nth 4 b 0 + 256 * nth 5 b 0;
     wifi_ssid := firstn 32 (skipn 6 b);
     volume := nth 38 b 0;
     checksum := nth 39 b 0 |}.

(** The loop of [calc_checksum] over a byte view: every byte but the last
    of the record, summed in a [uint8_t]. *)
Definition checksum_loop (ptr : list Z) : Z :=
  fold_left (fun sum i => (sum + nth i ptr 0) mod 256)
            (seq 0 (sizeof_SystemSettings - 1)) 0.

Definition calc_checksum (s : SystemSettings) : Z :=
  checksum_loop (bytes_of_settings s).

(** [s.checksum = c]. *)
Definition with_checksum (s : SystemSettings) (c : Z) : SystemSettings :=
  {| motor_offset := motor_offset s;
     magic := magic s;
     wifi_ssid := wifi_ssid s;
     volume := volume s;
     checksum := c |}.

(** The plain sum of a byte sequence, before any truncation. *)
Definition byte_sum (l : list Z) : Z := fold_right Z.add 0 l.

(** A string literal as the bytes of a C string, terminator included. *)
Definition c_string (s : string) : list Z :=
  map (fun c => Z.of_nat (nat_of_ascii c)) (list_ascii_of_string s) ++ [0].

Definition strcpy (dst : list Z) (src : string) : list Z :=
  overwrite dst (c_string src).

(** The assignments of [settings_init] when the stored record is not
    valid.  [strcpy] replaces the first seven bytes of the identifier and
    leaves the rest as read; the checksum field is set by the save that
    follows. *)
Definition load_defaults (cs : SystemSettings) : SystemSettings :=
  {| motor_offset := 0;
     magic := MAGIC_CODE;
     wifi_ssid := strcpy (wifi_ssid cs) "MyWifi";
     volume := 50;
     checksum := checksum cs |}.

(** ** The driver *)

Section Driver.
Context {D : Type} {B : Bus D}.

(** The byte [eeprom_wait_ready] sends is an uninitialised local of each
    call.  It is taken here as one value for a whole run; statements about
    the probes of more than one barrier leave the byte open ([polled]). *)
Variable dummy : Z.

Definition i2c_write_blocking (w : world D) (addr : Z) (src : list Z)
           (nostop : bool) : world D * Z :=
  let '(d, ret) := bus_write (dev w) addr src nostop in
  (mkWorld d (log w ++ [I2cWrite addr src nostop ret]), ret).

Definition i2c_read_blocking (w : world D) (addr : Z) (dst : list Z)
           (len : nat) (nostop : bool) : world D * list Z * Z :=
  match bus_read (dev w) addr len nostop with
  | (d, Some bytes) =>
      let ret := Z.of_nat len in
      (mkWorld d (log w ++ [I2cRead addr len nostop ret]),
       overwrite dst (firstn len bytes), ret)
  | (d, None) =>
      (mkWorld d (log w ++ [I2cRead addr len nostop PICO_ERROR_GENERIC]),
       dst, PICO_ERROR_GENERIC)
  end.

Definition sleep_us (w : world D) (us : Z) : world D :=
  mkWorld (dev w) (log w ++ [SleepUs us]).

Fixpoint eeprom_wait_ready (fuel : nat) (w : world D) : option (world D) :=
  match fuel with
  | O => None
  | S fuel' =>
      let '(w1, ret) :=
        i2c_write_blocking w AT24C256_ADDRESS [dummy] false in
      if ret <? 0 then eeprom_wait_ready fuel' (sleep_us w1 100)
      else Some w1
  end.

Definition _eeprom_write_page_raw (fuel : nat) (w : world D) (mem_addr : Z)
           (data : list Z) (len : nat) : option (world D) :=
  let buf := [Z.land (Z.shiftr mem_addr 8) 0xFF; Z.land mem_addr 0xFF]
             ++ firstn len data in
  let '(w1, _) :=
    i2c_write_blocking w AT24C256_ADDRESS (firstn (len + 2) buf) false in
  eeprom_wait_ready fuel w1.

(** The [while (remaining_len > 0)] loop.  [iter] bounds the number of
    iterations; [eeprom_write_buffer] starts it at [len], which the loop
    never exhausts since every chunk has at least one byte. *)
Fixpoint write_loop (iter fuel : nat) (w : world D) (addr : Z)
         (data : list Z) (offset remaining_len : nat) : option (world D) :=
  if (0 <? remaining_len)%nat then
    match iter with
    | O => None
    | S iter' =>
        let space_in_page := Z.to_nat (PAGE_SIZE - addr mod PAGE_SIZE) in
        let chunk_size :=
          if (remaining_len <? space_in_page)%nat then remaining_len
          else space_in_page in
        match _eeprom_write_page_raw fuel w addr (skipn offset data)
                                     chunk_size with
        | None => None
        | Some w1 =>
            write_loop iter' fuel w1
                       ((addr + Z.of_nat chunk_size) mod 65536) data
                       (offset + chunk_size) (remaining_len - chunk_size)
        end
    end
  else Some w.

Definition eeprom_write_buffer (fuel : nat) (w : world D) (addr : Z)
           (data : list Z) (len : nat) : option (world D) :=
  write_loop len fuel w addr data 0 len.

Definition eeprom_read_buffer (w : world D) (addr : Z) (buf : list Z)
           (len : nat) : world D * list Z :=
  let reg_addr := [Z.land (Z.shiftr addr 8) 0xFF; Z.land addr 0xFF] in
  let '(w1, _) := i2c_write_blocking w AT24C256_ADDRESS reg_addr true in
  let '(w2, buf', _) :=
    i2c_read_blocking w1 AT24C256_ADDRESS buf len false in
  (w2, buf').

Definition eeprom_write_byte (fuel : nat) (w : world D) (mem_addr : Z)
           (data : Z) : option (world D) :=
  let buf := [Z.land (Z.shiftr mem_addr 8) 0xFF; Z.land mem_addr 0xFF;
              data] in
  let '(w1, _) := i2c_write_blocking w AT24C256_ADDRESS buf false in
  eeprom_wait_ready fuel w1.

Definition eeprom_read_byte (w : world D) (mem_addr : Z) : world D * Z :=
  let reg_addr := [Z.land (Z.shiftr mem_addr 8) 0xFF; Z.land mem_addr 0xFF] in
  let rx_data := [0] in
  let '(w1, _) := i2c_write_blocking w AT24C256_ADDRESS reg_addr true in
  let '(w2, rx_data', _) :=
    i2c_read_blocking w1 AT24C256_ADDRESS rx_data 1 false in
  (w2, nth 0 rx_data' 0).

Definition eeprom_update_byte (fuel : nat) (w : world D) (addr : Z)
           (new_val : Z) : option (world D) :=
  let '(w1, old_val) := eeprom_read_byte w addr in
  if negb (old_val =? new_val) then eeprom_write_byte fuel w1 addr new_val
  else Some w1.

(** [current_settings] is a global in the source; here it is passed in
    and handed back. *)
Definition settings_save (fuel : nat) (w : world D)
           (current_settings : SystemSettings)
  : option (world D * SystemSettings) :=
  let cs :=
    with_checksum current_settings (calc_checksum current_settings) in
  match eeprom_write_buffer fuel w SETTINGS_ADDR (bytes_of_settings cs)
                            sizeof_SystemSettings with
  | Some w1 => Some (w1, cs)
  | None => None
  end.

Definition settings_init (fuel : nat) (w : world D)
           (current_settings : SystemSettings)
  : option (world D * SystemSettings) :=
  let '(w1, buf) :=
    eeprom_read_buffer w SETTINGS_ADDR (bytes_of_settings current_settings)
                       sizeof_SystemSettings in
  let cs := settings_of_bytes buf in
  let calced_sum := calc_checksum cs in
  if negb (magic cs =? MAGIC_CODE) || negb (checksum cs =? calced_sum) then
    settings_save fuel w1 (load_defaults cs)
  else Some (w1, cs).

(** The shape of a completed ready barrier in the log: refused probes,
    each followed by the 100 us back-off, then one acknowledged probe. *)
Inductive barrier : list event -> Prop :=
| barrier_ack : forall ret,
    0 <= ret ->
    barrier [I2cWrite AT24C256_ADDRESS [dummy] false ret]
| barrier_retry : forall ret evs,
    ret < 0 ->
    barrier evs ->
    barrier (I2cWrite AT24C256_ADDRESS [dummy] false ret
             :: SleepUs 100 :: evs).

(** A run of write cycles: each a write transaction with a stop
    condition, directly followed by its barrier. *)
Inductive write_cycles : list (list Z) -> list event -> Prop :=
| write_cycles_nil : write_cycles [] []
| write_cycles_cons : forall src ret evs srcs rest,
    barrier evs ->
    write_cycles srcs rest ->
    write_cycles (src :: srcs)
                 (I2cWrite AT24C256_ADDRESS src false ret :: evs ++ rest).

End Driver.

(** ** The device on the bus *)

Module At24c256.

(** Modelled from the spec: the device constant [CAPACITY], 32768 cells
    (the header comment of the source: 32,768 x 8). *)
Definition CAPACITY : Z := 32768.

(** Modelled from the spec: the EEPROM part itself, which is hardware and
    not code of the repository.  The spec's data model and the header
    comment of the source give: a flat space of [CAPACITY] cells in pages
    of 64; a memory address of two bytes, high byte first; a write that
    runs past the end of its page wraps inside that page; a read runs on
    across pages; after a write the device is busy and refuses to
    acknowledge its address until the write cycle is over.  The state is
    the cells, the address counter, the refused addressing attempts still
    to come in the running write cycle ([busy]) and the length of a write
    cycle counted the same way ([t_wr]). *)
Record device : Type := mkDevice {
  cells : Z -> Z;
  pointer : Z;
  busy : nat;
  t_wr : nat
}.

Definition store (m : Z -> Z) (a b : Z) : Z -> Z :=
  fun x => if x =? a then b else m x.

(** The address counter steps inside the page: only its low six bits
    count up. *)
Definition next_in_page (a : Z) : Z :=
  (a - a mod PAGE_SIZE) + (a + 1) mod PAGE_SIZE.

Fixpoint page_program (m : Z -> Z) (a : Z) (bs : list Z) : (Z -> Z) * Z :=
  match bs with
  | [] => (m, a)
  | b :: bs' => page_program (store m a b) (next_in_page a) bs'
  end.

Definition sequential_read (m : Z -> Z) (a : Z) (len : nat) : list Z :=
  map (fun i => m ((a + Z.of_nat i) mod CAPACITY)) (seq 0 len).

(** Modelled from the spec: the device's answer to a write transaction.
    Another bus address or a running write cycle: no acknowledgement.
    Two address bytes set the address counter; data bytes after them are
    programmed into the page and start a write cycle; a shorter transfer
    changes nothing. *)
Definition write (d : device) (addr : Z) (src : list Z) (nostop : bool)
  : device * Z :=
  if negb (addr =? AT24C256_ADDRESS) then (d, PICO_ERROR_GENERIC)
  else
    match busy d with
    | S k => (mkDevice (cells d) (pointer d) k (t_wr d), PICO_ERROR_GENERIC)
    | O =>
        match src with
        | hi :: lo :: data =>
            let a := (hi * 256 + lo) mod CAPACITY in
            match data with
            | [] => (mkDevice (cells d) a O (t_wr d), 2)
            | _ :: _ =>
                let '(m, a') := page_program (cells d) a data in
                (mkDevice m a' (t_wr d) (t_wr d),
                 Z.of_nat (List.length src))
            end
        | _ => (d, Z.of_nat (List.length src))
        end
    end.

(** Modelled from the spec: the device's answer to a read transaction,
    [len] cells from the address counter on. *)
Definition read (d : device) (addr : Z) (len : nat) (nostop : bool)
  : device * option (list Z) :=
  if negb (addr =? AT24C256_ADDRESS) then (d, None)
  else
    match busy d with
    | S k => (mkDevice (cells d) (pointer d) k (t_wr d), None)
    | O =>
        (mkDevice (cells d) ((pointer d + Z.of_nat len) mod CAPACITY) O
                  (t_wr d),
         Some (sequential_read (cells d) (pointer d) len))
    end.

#[global] Instance bus : Bus device := {|
  bus_write := write;
  bus_read := read
|}.

(** A device fresh from the factory: every cell erased to [0xFF], idle. *)
Definition blank (cycle : nat) : device :=
  mkDevice (fun _ => 0xFF) 0 O cycle.

(** The cells [a .. a + len - 1], as a list. *)
Definition contents (d : device) (a : Z) (len : nat) : list Z :=
  map (fun i => cells d (a + Z.of_nat i)) (seq 0 len).

End At24c256.

Module Unplugged.

(** Modelled from the spec: a bus on which nothing ever acknowledges
    (the spec's unresponsive device). *)
Inductive device : Type := nothing.

#[global] Instance bus : Bus device := {|
  bus_write := fun d _ _ _ => (d, PICO_ERROR_GENERIC);
  bus_read := fun d _ _ _ => (d, None)
|}.

End Unplugged.

(** [k] refused polls of the ready barrier, each with its back-off. *)
Definition refused_polls (dummy : Z) (k : nat) : list event :=
  concat (repeat [I2cWrite AT24C256_ADDRESS [dummy] false PICO_ERROR_GENERIC;
                  SleepUs 100] k).

(** A probe of the ready barrier as the bus sees it: a write of one byte
    to the device, ended by a stop, refused or acknowledged.  The byte
    sent is left open. *)
Definition refused_probe (e : event) : Prop :=
  match e with
  | I2cWrite a [_] false ret => a = AT24C256_ADDRESS /\ ret < 0
  | _ => False
  end.

Definition acknowledged_probe (e : event) : Prop :=
  match e with
  | I2cWrite a [_] false ret => a = AT24C256_ADDRESS /\ 0 <= ret
  | _ => False
  end.

(** A completed ready barrier with [k] refused probes: each refused probe
    is followed by the 100 us back-off, and the barrier ends with the
    first acknowledged probe. *)
Inductive polled : nat -> list event -> Prop :=
| polled_ack : forall e,
    acknowledged_probe e -> polled O [e]
| polled_retry : forall e k evs,
    refused_probe e ->
    polled k evs ->
    polled (S k) (e :: SleepUs 100 :: evs).

(** A run of write transactions with the given payloads, each one directly
    followed by a completed barrier whose number of refused probes
    satisfies [ok]. *)
Inductive polled_cycles (ok : nat -> Prop)
  : list (list Z) -> list event -> Prop :=
| polled_cycles_nil : polled_cycles ok [] []
| polled_cycles_cons : forall src ret k evs srcs rest,
    ok k ->
    polled k evs ->
    polled_cycles ok srcs rest ->
    polled_cycles ok (src :: srcs)
                  (I2cWrite AT24C256_ADDRESS src false ret :: evs ++ rest).

(** ** The spec's paging rule *)

(** The page segments of a write request as the specification words them:
    [chunk = min(remaining, P - (offset mod P))] bytes go out at [offset],
    then offset (a 16-bit value) and remaining advance by [chunk]. *)
Fixpoint page_segments (n : nat) (offset : Z) (data : list Z)
  : list (Z * list Z) :=
  match n, data with
  | S n', _ :: _ =>
      let remaining := List.length data in
      let chunk :=
        Nat.min remaining (Z.to_nat (PAGE_SIZE - offset mod PAGE_SIZE)) in
      (offset, firstn chunk data)
        :: page_segments n' ((offset + Z.of_nat chunk) mod 65536)
                         (skipn chunk data)
  | _, _ => []
  end.

Definition spec_write_segments (offset : Z) (data : list Z)
  : list (Z * list Z) :=
  page_segments (List.length data) offset data.

(** The bytes a page segment puts on the wire: the 16-bit address, high
    byte first, then the data. *)
Definition wire_payload (seg : Z * list Z) : list Z :=
  Z.land (Z.shiftr (fst seg) 8) 0xFF :: Z.land (fst seg) 0xFF :: snd seg.

(** A segment stays inside the page it starts in. *)
Definition fits_page (seg : Z * list Z) : Prop :=
  Z.of_nat (List.length (snd seg)) <= PAGE_SIZE - fst seg mod PAGE_SIZE.

(** ** Worked examples *)

Definition w0 : world At24c256.device := mkWorld (At24c256.blank 3) [].

Definition sample_settings : SystemSettings :=
  {| motor_offset := -2;
     magic := MAGIC_CODE;
     wifi_ssid := c_string "HomeNet";
     volume := 80;
     checksum := 0 |}.

(** A device that holds a saved copy of [sample_settings] at address 0. *)
Definition w_saved : world At24c256.device :=
  match settings_save 0 10 w0 sample_settings with
  | Some (w, _) => mkWorld (dev w) []
  | None => w0
  end.

(** A device whose cells are all zero. *)
Definition w_zero : world At24c256.device :=
  mkWorld (At24c256.mkDevice (fun _ => 0) 0 O 3) [].

(** ** The bus scan of the EEPROM example *)

Definition reserved_addr (addr : Z) : bool :=
  (Z.land addr 0x78 =? 0) || (Z.land addr 0x78 =? 0x78).

Definition newline : string := String (ascii_of_nat 10) EmptyString.

Definition hex_digit (n : Z) : ascii :=
  nth (Z.to_nat n) (list_ascii_of_string "0123456789abcdef") "0"%char.

(** [printf("%02x ", n)] for the values the scan passes, 0 to 255. *)
Definition printf_02x (n : Z) : string :=
  String (hex_digit (n / 16)) (String (hex_digit (n mod 16)) " ").

Section Scan.
Context {D : Type} {B : Bus D}.

(** The one-byte receive buffer of [scan_i2c_bus] is an uninitialised
    local whose content is never looked at. *)
Variable rxdata : Z.

(** One turn of the [for] loop of [scan_i2c_bus]; the text printed so far
    is carried along. *)
Definition scan_step (st : world D * string) (addr : Z) : world D * string :=
  let '(w, out) := st in
  let out1 :=
    if addr mod 16 =? 0 then (out ++ printf_02x addr)%string else out in
  let '(w1, ret) :=
    if reserved_addr addr then (w, PICO_ERROR_GENERIC)
    else
      let '(w', _, r) := i2c_read_blocking w addr [rxdata] 1 false in
      (w', r) in
  let mark := if 0 <=? ret then "@ "%string else ". "%string in
  let out2 := (out1 ++ mark)%string in
  let eol := if addr mod 16 =? 15 then newline else ""%string in
  let out3 := (out2 ++ eol)%string in
  (w1, out3).

Definition scan_i2c_bus (w : world D) : world D * string :=
  let out :=
    (newline ++ "Scanning I2C Bus..." ++ newline
     ++ "   0  1  2  3  4  5  6  7  8  9  A  B  C  D  E  F" ++ newline)%string in
  let '(w', out') :=
    fold_left scan_step (map Z.of_nat (seq 0 128)) (w, out) in
  (w', (out' ++ "Scan complete." ++ newline)%string).

End Scan.

(** The request a read transaction puts on the bus. *)
Definition read_request (e : event) : option (Z * nat * bool) :=
  match e with
  | I2cRead a len nostop _ => Some (a, len, nostop)
  | _ => None
  end.

(** The grid [scan_i2c_bus] prints, given which addresses are marked. *)
Definition scan_mark (found : Z -> bool) (addr : Z) : string :=
  if found addr then "@ "%string else ". "%string.

Definition scan_row (found : Z -> bool) (row : Z) : string :=
  let marks :=
    map (fun c => scan_mark found (16 * row + Z.of_nat c)) (seq 0 16) in
  (printf_02x (16 * row) ++ String.concat "" marks ++ newline)%string.

Definition scan_grid (found : Z -> bool) : string :=
  let rows := map (fun r => scan_row found (Z.of_nat r)) (seq 0 8) in
  (newline ++ "Scanning I2C Bus..." ++ newline
   ++ "   0  1  2  3  4  5  6  7  8  9  A  B  C  D  E  F" ++ newline
   ++ String.concat "" rows
   ++ "Scan complete." ++ newline)%string.

(** ** [main] of the EEPROM example *)

Definition NEXT_BYTE_ADDR : Z := SETTINGS_ADDR + Z.of_nat sizeof_SystemSettings.

Record main_result (D : Type) : Type := mkMainResult {
  final : world D;
  scan_text : string;
  loaded_settings : SystemSettings;
  test_read_settings : SystemSettings;
  read_val : Z;
  test_passed : bool
}.
Arguments mkMainResult {D} _ _ _ _ _ _.
Arguments final {D} _.
Arguments scan_text {D} _.
Arguments loaded_settings {D} _.
Arguments test_read_settings {D} _.
Arguments read_val {D} _.
Arguments test_passed {D} _.

Section Main.
Context {D : Type} {B : Bus D}.
Variable dummy : Z.
Variable rxdata : Z.

(** [main] up to its closing [while (1)], with the board's default I2C pins
    defined.  The GPIO and baud-rate setup of [setup_i2c] and the [printf]
    lines other than the scan's are left out; [garbage] is what the
    uninitialised local [test_read_settings] holds. *)
Definition main (fuel : nat) (w : world D)
           (current_settings garbage : SystemSettings)
  : option (main_result D) :=
  let '(w1, text) := scan_i2c_bus rxdata w in
  match settings_init dummy fuel w1 current_settings with
  | None => None
  | Some (w2, cs) =>
      let '(w3, buf) :=
        eeprom_read_buffer w2 SETTINGS_ADDR (bytes_of_settings garbage)
                           sizeof_SystemSettings in
      let test := settings_of_bytes buf in
      let write_val := 0xAB in
      match eeprom_write_byte dummy fuel w3 NEXT_BYTE_ADDR write_val with
      | None => None
      | Some w4 =>
          let '(w5, rv) := eeprom_read_byte w4 NEXT_BYTE_ADDR in
          Some (mkMainResult w5 text cs test rv (write_val =? rv))
      end
  end.

End Main.

(** A record whose fields hold values of their C types. *)
Definition well_formed (s : SystemSettings) : Prop :=
  - 2 ^ 31 <= motor_offset s < 2 ^ 31
  /\ 0 <= magic s < 65536
  /\ List.length (wifi_ssid s) = 32%nat.

(** The test of [settings_init], turned round: the magic marker and the
    checksum field both match. *)
Definition settings_valid (s : SystemSettings) : bool :=
  (magic s =? MAGIC_CODE) && (checksum s =? calc_checksum s).

(** What [settings_init] hands to [settings_save], and gets back, when the
    stored record is not valid. *)
Definition repaired_settings (stored : SystemSettings) : SystemSettings :=
  with_checksum (load_defaults stored) (calc_checksum (load_defaults stored)).

(** A byte sequence with the cell at index [i] replaced. *)
Definition corrupt (raw : list Z) (i : nat) (b : Z) : list Z :=
  firstn i raw ++ b :: skipn (S i) raw.

(** ** The WS2812 example *)

Definition NUM_PIXELS : Z := 4.

(** The PIO block as the driver sees it: the words pushed to the TX FIFO
    of each state machine, in order.  [pio_sm_put_blocking] is taken to
    return once the word is queued. *)
Definition pio_tx : Type := list (Z * Z).

Definition pio_sm_put_blocking (pio : pio_tx) (sm data : Z) : pio_tx :=
  pio ++ [(sm, data)].

Definition put_pixel (pio : pio_tx) (sm pixel_grb : Z) : pio_tx :=
  pio_sm_put_blocking pio sm (Z.shiftl pixel_grb 8 mod 2 ^ 32).

Definition urgb_u32 (r g b : Z) : Z :=
  Z.lor (Z.lor (Z.shiftl r 8) (Z.shiftl g 16)) b.

Definition urgbw_u32 (r g b w : Z) : Z :=
  Z.lor (Z.lor (Z.lor (Z.shiftl r 8) (Z.shiftl g 16)) (Z.shiftl w 24)) b.

(** One turn of the [for] loop of [pattern_snakes]. *)
Definition snakes_step (sm t : Z) (pio : pio_tx) (i : nat) : pio_tx :=
  let x := ((Z.of_nat i + Z.shiftr t 1) mod 2 ^ 32) mod 64 in
  if x <? 10 then put_pixel pio sm (urgb_u32 0xff 0 0)
  else if (15 <=? x) && (x <? 25) then put_pixel pio sm (urgb_u32 0 0xff 0)
  else if (30 <=? x) && (x <? 40) then put_pixel pio sm (urgb_u32 0 0 0xff)
  else put_pixel pio sm 0.

Definition pattern_snakes (pio : pio_tx) (sm : Z) (len : nat) (t : Z)
  : pio_tx :=
  fold_left (snakes_step sm t) (seq 0 len) pio.

(** The loop of [pattern_greys]: the level goes up by one per pixel and
    falls back to 0 at [max]. *)
Fixpoint greys_loop (pio : pio_tx) (sm : Z) (len : nat) (t max : Z)
  : pio_tx :=
  match len with
  | O => pio
  | S len' =>
      let pio1 := put_pixel pio sm ((t * 0x10101) mod 2 ^ 32) in
      let t1 := (t + 1) mod 2 ^ 32 in
      greys_loop pio1 sm len' (if max <=? t1 then 0 else t1) max
  end.

Definition pattern_greys (pio : pio_tx) (sm : Z) (len : nat) (t : Z)
  : pio_tx :=
  let max := 100 in
  greys_loop pio sm len (t mod max) max.

Section Random.

(** The values successive calls of the C library's [rand] return; the
    state carries how many calls were made. *)
Variable rand_values : nat -> Z.

Definition rand (calls : nat) : Z * nat := (rand_values calls, S calls).

Fixpoint random_loop (pio : pio_tx) (calls : nat) (sm : Z) (len : nat)
  : pio_tx * nat :=
  match len with
  | O => (pio, calls)
  | S len' =>
      let '(r, calls1) := rand calls in
      random_loop (put_pixel pio sm (r mod 2 ^ 32)) calls1 sm len'
  end.

Definition pattern_random (pio : pio_tx) (calls : nat) (sm : Z) (len : nat)
           (t : Z) : pio_tx * nat :=
  if negb (t mod 8 =? 0) then (pio, calls)
  else random_loop pio calls sm len.

Fixpoint sparkle_loop (pio : pio_tx) (calls : nat) (sm : Z) (len : nat)
  : pio_tx * nat :=
  match len with
  | O => (pio, calls)
  | S len' =>
      let '(r, calls1) := rand calls in
      sparkle_loop
        (put_pixel pio sm (if negb (Z.rem r 16 =? 0) then 0 else 0xffffffff))
        calls1 sm len'
  end.

Definition pattern_sparkle (pio : pio_tx) (calls : nat) (sm : Z) (len : nat)
           (t : Z) : pio_tx * nat :=
  if negb (t mod 8 =? 0) then (pio, calls)
  else sparkle_loop pio calls sm len.

End Random.

(** The colour bytes of a word as the WS2812 receives it, first byte
    first: green, red, blue, and what is left in the last byte. *)
Definition wire_bytes (word : Z) : list Z :=
  [Z.shiftr word 24 mod 256; Z.shiftr word 16 mod 256;
   Z.shiftr word 8 mod 256; word mod 256].

(** ** The PIO blink example *)

Inductive pio_event : Type :=
| BlinkProgramInit (sm offset pin : Z)
| SmSetEnabled (sm : Z) (enabled : bool)
| TxfWrite (sm word : Z).

Section Blink.

(** [clock_get_hz(clk_sys)], the system clock in Hz. *)
Variable clk_sys_hz : Z.

(** [blink_pin_forever]: the [printf] is left out; the count is computed
    in [uint] arithmetic. *)
Definition blink_pin_forever (pio : list pio_event) (sm offset pin freq : Z)
  : list pio_event :=
  pio ++ [BlinkProgramInit sm offset pin;
          SmSetEnabled sm true;
          TxfWrite sm ((clk_sys_hz / ((2 * freq) mod 2 ^ 32) - 3) mod 2 ^ 32)].

End Blink.

Example wait_ready_blank :
  option_map log (eeprom_wait_ready 7 1 w0)
  = Some [I2cWrite 0x50 [7] false 1].
Proof. reflexivity. Qed.

Example write_60_log :
  option_map log (eeprom_write_buffer 0 10 w0 60 [1; 2; 3; 4; 5; 6] 6)
  = Some [I2cWrite 0x50 [0; 60; 1; 2; 3; 4] false 6;
          I2cWrite 0x50 [0] false (-1); SleepUs 100;
          I2cWrite 0x50 [0] false (-1); SleepUs 100;
          I2cWrite 0x50 [0] false (-1); SleepUs 100;
          I2cWrite 0x50 [0] false 1;
          I2cWrite 0x50 [0; 64; 5; 6] false 4;
          I2cWrite 0x50 [0] false (-1); SleepUs 100;
          I2cWrite 0x50 [0] false (-1); SleepUs 100;
          I2cWrite 0x50 [0] false (-1); SleepUs 100;
          I2cWrite 0x50 [0] false 1].
Proof. reflexivity. Qed.

Example write_60_read_back :
  match eeprom_write_buffer 0 10 w0 60 [1; 2; 3; 4; 5; 6] 6 with
  | Some w => snd (eeprom_read_buffer w 60 [0; 0; 0; 0; 0; 0] 6)
  | None => []
  end = [1; 2; 3; 4; 5; 6].
Proof. reflexivity. Qed.

Example write_60_out_of_fuel :
  eeprom_write_buffer 0 3 w0 60 [1; 2; 3; 4; 5; 6] 6 = None.
Proof. reflexivity. Qed.

Example unplugged_hangs :
  eeprom_wait_ready 0 1000 (mkWorld Unplugged.nothing []) = None.
Proof. reflexivity. Qed.

(** ** Arithmetic of the wire encoding *)

Lemma address_bytes_big_endian (a : Z) :
  0 <= a < 65536 ->
  Z.land (Z.shiftr a 8) 0xFF * 256 + Z.land a 0xFF = a.
Proof.
  intros Ha.
  change 0xFF with (Z.ones 8).
  rewrite !Z.land_ones, Z.shiftr_div_pow2 by lia.
  change (2 ^ 8) with 256.
  rewrite (Z.mod_small (a / 256)).
  - pose proof (Z.div_mod a 256). lia.
  - split.
    + apply Z.div_pos; lia.
    + apply Z.div_lt_upper_bound; lia.
Qed.

Lemma address_bytes_range (a : Z) :
  0 <= Z.land (Z.shiftr a 8) 0xFF < 256 /\ 0 <= Z.land a 0xFF < 256.
Proof.
  change 0xFF with (Z.ones 8).
  rewrite !Z.land_ones by lia.
  change (2 ^ 8) with 256.
  split; apply Z.mod_pos_bound; lia.
Qed.

Lemma firstn_header (len : nat) (hi lo : Z) (data : list Z) :
  firstn (len + 2) ([hi; lo] ++ firstn len data) = hi :: lo :: firstn len data.
Proof.
  apply firstn_all2. simpl.
  pose proof (firstn_le_length len data). lia.
Qed.

(** ** Facts about the driver on any bus *)

Section DriverFacts.
Context {D : Type} {B : Bus D}.
Variable dummy : Z.

Lemma i2c_write_blocking_log (w : world D) addr src nostop :
  log (fst (i2c_write_blocking w addr src nostop))
  = log w ++ [I2cWrite addr src nostop
                       (snd (i2c_write_blocking w addr src nostop))].
Proof.
  unfold i2c_write_blocking.
  destruct (bus_write (dev w) addr src nostop); reflexivity.
Qed.

Lemma i2c_read_blocking_log (w : world D) addr dst len nostop :
  exists ret,
    log (fst (fst (i2c_read_blocking w addr dst len nostop)))
    = log w ++ [I2cRead addr len nostop ret].
Proof.
  unfold i2c_read_blocking.
  destruct (bus_read (dev w) addr len nostop) as [d [bytes|]];
    eexists; reflexivity.
Qed.

Lemma eeprom_wait_ready_barrier (fuel : nat) :
  forall w w',
    eeprom_wait_ready dummy fuel w = Some w' ->
    exists evs, log w' = log w ++ evs /\ barrier dummy evs.
Proof.
  induction fuel as [|fuel IH]; intros w w' Hrun; [discriminate|].
  simpl in Hrun.
  pose proof (i2c_write_blocking_log w AT24C256_ADDRESS [dummy] false) as Hlog.
  destruct (i2c_write_blocking w AT24C256_ADDRESS [dummy] false) as [w1 ret].
  simpl in Hlog.
  destruct (ret <? 0) eqn:Hret.
  - apply IH in Hrun. destruct Hrun as (evs & Hevs & Hbar).
    exists (I2cWrite AT24C256_ADDRESS [dummy] false ret :: SleepUs 100 :: evs).
    split.
    + rewrite Hevs. simpl. rewrite Hlog, <- !app_assoc. reflexivity.
    + apply barrier_retry; [apply Z.ltb_lt; exact Hret | exact Hbar].
  - injection Hrun as <-.
    exists [I2cWrite AT24C256_ADDRESS [dummy] false ret].
    split; [exact Hlog|].
    apply barrier_ack. apply Z.ltb_ge. exact Hret.
Qed.

(** On a bus that refuses every write, the barrier outlasts any budget. *)
Lemma eeprom_wait_ready_starves (fuel : nat) :
  (forall (d : D) src nostop,
      snd (bus_write d AT24C256_ADDRESS src nostop) < 0) ->
  forall w, eeprom_wait_ready dummy fuel w = None.
Proof.
  intros Hnack.
  induction fuel as [|fuel IH]; intros w; [reflexivity|].
  simpl. unfold i2c_write_blocking.
  specialize (Hnack (dev w) [dummy] false).
  destruct (bus_write (dev w) AT24C256_ADDRESS [dummy] false) as [d ret].
  simpl in Hnack.
  apply Z.ltb_lt in Hnack. rewrite Hnack. apply IH.
Qed.

Lemma write_page_raw_cycle fuel (w w' : world D) mem_addr data len :
  _eeprom_write_page_raw dummy fuel w mem_addr data len = Some w' ->
  exists ret evs,
    log w' = log w
             ++ I2cWrite AT24C256_ADDRESS
                  (Z.land (Z.shiftr mem_addr 8) 0xFF :: Z.land mem_addr 0xFF
                     :: firstn len data) false ret
             :: evs
    /\ barrier dummy evs.
Proof.
  unfold _eeprom_write_page_raw. rewrite firstn_header.
  intros Hrun.
  set (src := Z.land (Z.shiftr mem_addr 8) 0xFF :: Z.land mem_addr 0xFF
                :: firstn len data) in *.
  pose proof (i2c_write_blocking_log w AT24C256_ADDRESS src false) as Hlog.
  destruct (i2c_write_blocking w AT24C256_ADDRESS src false) as [w1 ret].
  simpl in Hlog.
  apply eeprom_wait_ready_barrier in Hrun.
  destruct Hrun as (evs & Hevs & Hbar).
  exists ret, evs. split; [|exact Hbar].
  rewrite Hevs, Hlog, <- app_assoc. reflexivity.
Qed.

Lemma write_byte_cycle fuel (w w' : world D) mem_addr data :
  eeprom_write_byte dummy fuel w mem_addr data = Some w' ->
  exists ret evs,
    log w' = log w
             ++ I2cWrite AT24C256_ADDRESS
                  [Z.land (Z.shiftr mem_addr 8) 0xFF; Z.land mem_addr 0xFF;
                   data] false ret
             :: evs
    /\ barrier dummy evs.
Proof.
  unfold eeprom_write_byte. intros Hrun.
  set (src := [Z.land (Z.shiftr mem_addr 8) 0xFF; Z.land mem_addr 0xFF;
               data]) in *.
  pose proof (i2c_write_blocking_log w AT24C256_ADDRESS src false) as Hlog.
  destruct (i2c_write_blocking w AT24C256_ADDRESS src false) as [w1 ret].
  simpl in Hlog.
  apply eeprom_wait_ready_barrier in Hrun.
  destruct Hrun as (evs & Hevs & Hbar).
  exists ret, evs. split; [|exact Hbar].
  rewrite Hevs, Hlog, <- app_assoc. reflexivity.
Qed.

End DriverFacts.

(** ** Lists *)

Lemma map_nth_seq (l : list Z) (d : Z) :
  map (fun i => nth i l d) (seq 0 (List.length l)) = l.
Proof.
  induction l as [|x l IH]; [reflexivity|].
  simpl. f_equal.
  rewrite <- seq_shift, map_map. exact IH.
Qed.

Lemma overwrite_all (dst src : list Z) :
  List.length dst = List.length src -> overwrite dst src = src.
Proof.
  intros Hlen. unfold overwrite.
  rewrite skipn_all2 by lia. apply app_nil_r.
Qed.

(** ** The spec's paging rule, on its own *)

Lemma page_segments_step (n : nat) (offset : Z) (data : list Z) :
  data <> [] ->
  page_segments (S n) offset data
  = let chunk := Nat.min (List.length data)
                         (Z.to_nat (PAGE_SIZE - offset mod PAGE_SIZE)) in
    (offset, firstn chunk data)
      :: page_segments n ((offset + Z.of_nat chunk) mod 65536)
                       (skipn chunk data).
Proof. destruct data; [congruence | reflexivity]. Qed.

Lemma space_in_page_pos (addr : Z) :
  (1 <= Z.to_nat (PAGE_SIZE - addr mod PAGE_SIZE) <= 64)%nat.
Proof.
  unfold PAGE_SIZE.
  pose proof (Z.mod_pos_bound addr 64). lia.
Qed.

Lemma page_segments_wf (n : nat) :
  forall offset data,
    0 <= offset < 65536 ->
    Forall (fun seg => 0 <= fst seg < 65536 /\ snd seg <> [] /\ fits_page seg)
           (page_segments n offset data).
Proof.
  induction n as [|n IH]; intros offset data Hoff; [constructor|].
  destruct data as [|b data]; [constructor|].
  rewrite page_segments_step by discriminate.
  set (chunk := Nat.min _ _).
  pose proof (space_in_page_pos offset) as Hsp.
  assert (Hchunk : (1 <= chunk)%nat) by (subst chunk; simpl List.length; lia).
  cbv zeta. constructor.
  - simpl fst; simpl snd. split; [exact Hoff|]. split.
    + destruct chunk; [lia | discriminate].
    + unfold fits_page. simpl fst; simpl snd.
      rewrite length_firstn. subst chunk. lia.
  - apply IH. apply Z.mod_pos_bound. lia.
Qed.

Lemma page_segments_concat (n : nat) :
  forall offset data,
    (List.length data <= n)%nat ->
    concat (map snd (page_segments n offset data)) = data.
Proof.
  induction n as [|n IH]; intros offset data Hlen.
  - destruct data; [reflexivity | simpl in Hlen; lia].
  - destruct data as [|b data]; [reflexivity|].
    rewrite page_segments_step by discriminate.
    set (chunk := Nat.min _ _).
    pose proof (space_in_page_pos offset) as Hsp.
    assert (Hchunk : (1 <= chunk)%nat) by (subst chunk; simpl List.length; lia).
    cbv zeta. simpl map. simpl concat.
    rewrite IH.
    + apply firstn_skipn.
    + rewrite length_skipn. simpl List.length in *. lia.
Qed.

(** ** Reading the data writes off a log *)

Lemma data_writes_app (l1 l2 : list event) :
  data_writes (l1 ++ l2) = data_writes l1 ++ data_writes l2.
Proof.
  induction l1 as [|e l1 IH]; [reflexivity|].
  simpl. destruct (data_write e); rewrite IH; reflexivity.
Qed.

Lemma data_writes_barrier (dummy : Z) (evs : list event) :
  barrier dummy evs -> data_writes evs = [].
Proof. induction 1; simpl; auto. Qed.

Lemma data_writes_cycles (dummy : Z) (segs : list (Z * list Z)) :
  forall evs,
    Forall (fun seg => 0 <= fst seg < 65536 /\ snd seg <> [] /\ fits_page seg)
           segs ->
    write_cycles dummy (map wire_payload segs) evs ->
    data_writes evs = segs.
Proof.
  induction segs as [|[a bs] segs IH]; intros evs Hwf Hcyc.
  - inversion Hcyc. reflexivity.
  - inversion Hwf as [|? ? (Ha & Hbs & _) Hwf']; subst.
    simpl map in Hcyc.
    inversion Hcyc as [|src ret evs0 srcs rest Hbar Hrest]; subst.
    simpl fst in *; simpl snd in *.
    destruct bs as [|b bs]; [congruence|].
    unfold wire_payload. simpl.
    rewrite address_bytes_big_endian by exact Ha.
    rewrite data_writes_app, (data_writes_barrier dummy evs0 Hbar).
    simpl. f_equal. apply IH; assumption.
Qed.

(** ** The write loop on any bus *)

Section WriteLoopFacts.
Context {D : Type} {B : Bus D}.
Variable dummy : Z.

Lemma chunk_size_min (remaining_len space_in_page : nat) :
  (if (remaining_len <? space_in_page)%nat then remaining_len
   else space_in_page) = Nat.min remaining_len space_in_page.
Proof.
  destruct (Nat.ltb_spec remaining_len space_in_page); lia.
Qed.

(** Every iteration of the loop is one write cycle, and the cycles carry
    the segments of the paging rule applied to [data[offset ..
    offset + remaining_len)]. *)
Lemma write_loop_cycles (iter : nat) :
  forall fuel (w w' : world D) addr data offset remaining_len,
    (offset + remaining_len <= List.length data)%nat ->
    (remaining_len <= iter)%nat ->
    write_loop dummy iter fuel w addr data offset remaining_len = Some w' ->
    exists evs,
      log w' = log w ++ evs
      /\ write_cycles dummy
           (map wire_payload
                (page_segments iter addr
                   (firstn remaining_len (skipn offset data))))
           evs.
Proof.
  induction iter as [|iter IH];
    intros fuel w w' addr data offset remaining_len Hdata Hiter Hrun.
  - assert (remaining_len = O) by lia. subst.
    simpl in Hrun. injection Hrun as <-.
    exists []. rewrite app_nil_r. split; [reflexivity | constructor].
  - destruct remaining_len as [|r].
    + simpl in Hrun. injection Hrun as <-.
      exists []. rewrite app_nil_r. split; [reflexivity | constructor].
    + remember (S r) as remaining_len eqn:Hr.
      cbn [write_loop] in Hrun.
      replace (0 <? remaining_len)%nat with true in Hrun
        by (symmetry; apply Nat.ltb_lt; lia).
      rewrite chunk_size_min in Hrun.
      pose proof (space_in_page_pos addr) as Hsp.
      set (chunk := Nat.min remaining_len
                      (Z.to_nat (PAGE_SIZE - addr mod PAGE_SIZE))) in *.
      destruct (_eeprom_write_page_raw dummy fuel w addr
                  (skipn offset data) chunk) as [w1|] eqn:Hpage;
        [|discriminate].
      apply write_page_raw_cycle in Hpage.
      destruct Hpage as (ret & evs1 & Hlog1 & Hbar).
      apply IH in Hrun; [|lia|lia].
      destruct Hrun as (evs2 & Hlog2 & Hcyc).
      set (d := firstn remaining_len (skipn offset data)).
      assert (Hlen : List.length d = remaining_len).
      { subst d. rewrite length_firstn, length_skipn. lia. }
      assert (Hne : d <> []).
      { intros E. rewrite E in Hlen. simpl in Hlen. lia. }
      rewrite page_segments_step by exact Hne.
      rewrite Hlen. fold chunk. cbv zeta.
      assert (Hhead : firstn chunk d = firstn chunk (skipn offset data)).
      { subst d. rewrite firstn_firstn. f_equal. lia. }
      assert (Htail : skipn chunk d
                      = firstn (remaining_len - chunk)
                               (skipn (offset + chunk) data)).
      { subst d. rewrite skipn_firstn_comm, skipn_skipn.
        f_equal. f_equal. lia. }
      rewrite Hhead, Htail.
      exists (I2cWrite AT24C256_ADDRESS
                (wire_payload (addr, firstn chunk (skipn offset data)))
                false ret :: evs1 ++ evs2).
      split.
      * rewrite Hlog2, Hlog1, <- app_assoc. reflexivity.
      * simpl map. apply write_cycles_cons; assumption.
Qed.

Lemma write_buffer_cycles fuel (w w' : world D) addr data :
  eeprom_write_buffer dummy fuel w addr data (List.length data) = Some w' ->
  exists evs,
    log w' = log w ++ evs
    /\ write_cycles dummy (map wire_payload (spec_write_segments addr data))
                    evs.
Proof.
  intros Hrun. unfold eeprom_write_buffer in Hrun.
  apply write_loop_cycles in Hrun; [|simpl; lia|lia].
  rewrite skipn_O, firstn_all in Hrun. exact Hrun.
Qed.

Lemma write_buffer_segments fuel (w w' : world D) addr data :
  0 <= addr < 65536 ->
  eeprom_write_buffer dummy fuel w addr data (List.length data) = Some w' ->
  exists evs,
    log w' = log w ++ evs
    /\ data_writes evs = spec_write_segments addr data.
Proof.
  intros Haddr Hrun.
  apply write_buffer_cycles in Hrun. destruct Hrun as (evs & Hlog & Hcyc).
  exists evs. split; [exact Hlog|].
  eapply data_writes_cycles; [|exact Hcyc].
  apply page_segments_wf. exact Haddr.
Qed.

End WriteLoopFacts.

(** ** The driver on the AT24C256 *)

Module At24c256Facts.
Import At24c256.

Lemma page_program_cells (bs : list Z) :
  forall m a,
    0 <= a ->
    a mod PAGE_SIZE + Z.of_nat (List.length bs) <= PAGE_SIZE ->
    forall x,
      fst (page_program m a bs) x
      = if (a <=? x) && (x <? a + Z.of_nat (List.length bs))
        then nth (Z.to_nat (x - a)) bs 0
        else m x.
Proof.
  unfold PAGE_SIZE.
  induction bs as [|b bs IH]; intros m a Ha Hfit x.
  - simpl. destruct (a <=? x) eqn:E1, (x <? a + 0) eqn:E2; simpl; try reflexivity.
    apply Z.leb_le in E1. apply Z.ltb_lt in E2. lia.
  - cbn [page_program].
    destruct bs as [|b' bs].
    + simpl. unfold store.
      destruct (Z.eqb_spec x a) as [->|Hne].
      * replace (a <=? a) with true by (symmetry; apply Z.leb_le; lia).
        replace (a <? a + 1) with true by (symmetry; apply Z.ltb_lt; lia).
        simpl. rewrite Z.sub_diag. reflexivity.
      * destruct (a <=? x) eqn:E1, (x <? a + 1) eqn:E2; simpl; try reflexivity.
        apply Z.leb_le in E1. apply Z.ltb_lt in E2. lia.
    + remember (b' :: bs) as tl eqn:Htl.
      assert (Hlen : (1 <= List.length tl)%nat) by (subst tl; simpl; lia).
      assert (Hnext : next_in_page a = a + 1).
      { unfold next_in_page, PAGE_SIZE.
        simpl List.length in Hfit.
        Z.div_mod_to_equations. lia. }
      rewrite Hnext.
      rewrite IH.
      * simpl List.length. unfold store.
        destruct (Z.eqb_spec x a) as [->|Hne].
        -- replace (a + 1 <=? a) with false by (symmetry; apply Z.leb_gt; lia).
           replace (a <=? a) with true by (symmetry; apply Z.leb_le; lia).
           replace (a <? a + Z.of_nat (S (List.length tl))) with true
             by (symmetry; apply Z.ltb_lt; lia).
           simpl. rewrite Z.sub_diag. reflexivity.
        -- destruct (Z.leb_spec (a + 1) x) as [H1|H1];
             destruct (Z.ltb_spec x (a + 1 + Z.of_nat (List.length tl))) as [H2|H2];
             destruct (Z.leb_spec a x) as [H3|H3];
             destruct (Z.ltb_spec x (a + Z.of_nat (S (List.length tl)))) as [H4|H4];
             simpl; try reflexivity; try lia.
           replace (Z.to_nat (x - a)) with (S (Z.to_nat (x - (a + 1)))) by lia.
           reflexivity.
      * lia.
      * simpl List.length in Hfit. Z.div_mod_to_equations. lia.
Qed.

Section OnDevice.
Variable dummy : Z.

(** The barrier ends once the write cycle is over, and leaves the
    cells and the address counter as they were. *)
Lemma wait_ready_returns (k : nat) :
  forall fuel (w : world device),
    busy (dev w) = k ->
    (k < fuel)%nat ->
    exists w',
      eeprom_wait_ready dummy fuel w = Some w'
      /\ dev w' = mkDevice (cells (dev w)) (pointer (dev w)) O
                           (t_wr (dev w)).
Proof.
  induction k as [|k IH]; intros fuel [d l] Hbusy Hfuel;
    destruct fuel as [|fuel]; try lia; simpl in Hbusy.
  - destruct d as [m p b t]. simpl in Hbusy. subst b.
    eexists. split; reflexivity.
  - destruct d as [m p b t]. simpl in Hbusy. subst b.
    cbn [eeprom_wait_ready i2c_write_blocking bus_write bus dev write
         AT24C256_ADDRESS busy].
    change (negb (80 =? 80)) with false. cbv iota.
    change (PICO_ERROR_GENERIC <? 0) with true. cbv iota.
    apply IH; simpl; lia.
Qed.

Lemma write_ready_data m p t hi lo b bs nostop :
  write (mkDevice m p O t) AT24C256_ADDRESS (hi :: lo :: b :: bs) nostop
  = (mkDevice
       (fst (page_program m ((hi * 256 + lo) mod CAPACITY) (b :: bs)))
       (snd (page_program m ((hi * 256 + lo) mod CAPACITY) (b :: bs)))
       t t,
     Z.of_nat (List.length (hi :: lo :: b :: bs))).
Proof.
  unfold write.
  change (negb (AT24C256_ADDRESS =? AT24C256_ADDRESS)) with false.
  cbv iota. cbn [busy t_wr cells].
  destruct (page_program m ((hi * 256 + lo) mod CAPACITY) (b :: bs));
    reflexivity.
Qed.

Lemma write_ready_address m p t hi lo nostop :
  write (mkDevice m p O t) AT24C256_ADDRESS [hi; lo] nostop
  = (mkDevice m ((hi * 256 + lo) mod CAPACITY) O t, 2).
Proof. reflexivity. Qed.

Lemma write_page_raw_returns fuel (w : world device) mem_addr data len :
  busy (dev w) = O ->
  (t_wr (dev w) < fuel)%nat ->
  exists w',
    _eeprom_write_page_raw dummy fuel w mem_addr data len = Some w'
    /\ busy (dev w') = O
    /\ t_wr (dev w') = t_wr (dev w)
    /\ cells (dev w')
       = fst (page_program (cells (dev w))
                ((Z.land (Z.shiftr mem_addr 8) 0xFF * 256
                  + Z.land mem_addr 0xFF) mod CAPACITY)
                (firstn len data)).
Proof.
  destruct w as [[m p b t] l]. simpl. intros -> Hfuel.
  unfold _eeprom_write_page_raw. rewrite firstn_header.
  unfold i2c_write_blocking. cbn [bus_write bus dev].
  destruct (firstn len data) as [|b0 bs] eqn:Hd.
  - rewrite write_ready_address.
    edestruct (wait_ready_returns O fuel) as (w' & Hrun & Hdev);
      [| |exists w'; split; [exact Hrun|]]; [reflexivity|simpl; lia|].
    rewrite Hdev. simpl. auto.
  - rewrite write_ready_data.
    edestruct (wait_ready_returns t fuel) as (w' & Hrun & Hdev);
      [| |exists w'; split; [exact Hrun|]]; [reflexivity|simpl; lia|].
    rewrite Hdev. simpl. auto.
Qed.

(** Termination of the write loop, whatever the address. *)
Lemma write_loop_returns (iter : nat) :
  forall fuel (w : world device) addr data offset remaining_len,
    busy (dev w) = O ->
    (t_wr (dev w) < fuel)%nat ->
    (remaining_len <= iter)%nat ->
    exists w',
      write_loop dummy iter fuel w addr data offset remaining_len = Some w'
      /\ busy (dev w') = O
      /\ t_wr (dev w') = t_wr (dev w).
Proof.
  induction iter as [|iter IH];
    intros fuel w addr data offset remaining_len Hbusy Hfuel Hiter.
  - assert (remaining_len = O) by lia. subst.
    exists w. simpl. auto.
  - destruct remaining_len as [|r].
    + exists w. simpl. auto.
    + remember (S r) as rem eqn:Hr.
      cbn [write_loop].
      replace (0 <? rem)%nat with true by (symmetry; apply Nat.ltb_lt; lia).
      rewrite chunk_size_min.
      pose proof (space_in_page_pos addr) as Hsp.
      set (chunk := Nat.min rem _).
      destruct (write_page_raw_returns fuel w addr (skipn offset data)
                  chunk Hbusy Hfuel) as (w1 & Hrun1 & Hb1 & Ht1 & _).
      rewrite Hrun1.
      destruct (IH fuel w1 ((addr + Z.of_nat chunk) mod 65536) data
                   (offset + chunk)%nat (rem - chunk)%nat)
        as (w' & Hrun & Hb & Ht); [assumption|lia|lia|].
      exists w'. rewrite Hrun, Ht, Ht1. auto.
Qed.

(** What the write loop leaves in the cells when the request lies
    inside the device. *)
Lemma write_loop_cells (iter : nat) :
  forall fuel (w : world device) addr data offset remaining_len,
    busy (dev w) = O ->
    (t_wr (dev w) < fuel)%nat ->
    0 <= addr ->
    addr + Z.of_nat remaining_len <= CAPACITY ->
    (offset + remaining_len <= List.length data)%nat ->
    (remaining_len <= iter)%nat ->
    exists w',
      write_loop dummy iter fuel w addr data offset remaining_len = Some w'
      /\ busy (dev w') = O
      /\ t_wr (dev w') = t_wr (dev w)
      /\ forall x,
           cells (dev w') x
           = if (addr <=? x) && (x <? addr + Z.of_nat remaining_len)
             then nth (offset + Z.to_nat (x - addr)) data 0
             else cells (dev w) x.
Proof.
  unfold CAPACITY.
  induction iter as [|iter IH];
    intros fuel w addr data offset remaining_len
           Hbusy Hfuel Haddr Hcap Hdata Hiter.
  - assert (remaining_len = O) by lia. subst.
    exists w. simpl. repeat split; auto. intros x.
    destruct (Z.leb_spec addr x), (Z.ltb_spec x (addr + 0));
      simpl; try reflexivity; lia.
  - destruct remaining_len as [|r].
    + exists w. simpl. repeat split; auto. intros x.
      destruct (Z.leb_spec addr x), (Z.ltb_spec x (addr + 0));
        simpl; try reflexivity; lia.
    + remember (S r) as rem eqn:Hr.
      cbn [write_loop].
      replace (0 <? rem)%nat with true by (symmetry; apply Nat.ltb_lt; lia).
      rewrite chunk_size_min.
      pose proof (space_in_page_pos addr) as Hsp.
      set (chunk := Nat.min rem _).
      assert (Hchunk : (1 <= chunk <= rem)%nat) by (subst chunk; lia).
      assert (Hpage : addr mod PAGE_SIZE + Z.of_nat chunk <= PAGE_SIZE).
      { subst chunk. unfold PAGE_SIZE in *.
        pose proof (Z.mod_pos_bound addr 64). lia. }
      destruct (write_page_raw_returns fuel w addr (skipn offset data)
                  chunk Hbusy Hfuel) as (w1 & Hrun1 & Hb1 & Ht1 & Hc1).
      rewrite Hrun1.
      rewrite address_bytes_big_endian in Hc1 by lia.
      rewrite Z.mod_small in Hc1 by (unfold CAPACITY; lia).
      assert (Hflen : List.length (firstn chunk (skipn offset data))
                      = chunk).
      { rewrite length_firstn, length_skipn. lia. }
      destruct (IH fuel w1 ((addr + Z.of_nat chunk) mod 65536) data
                   (offset + chunk)%nat (rem - chunk)%nat)
        as (w' & Hrun & Hb & Ht & Hc).
      * assumption.
      * lia.
      * apply Z.mod_pos_bound. lia.
      * rewrite Z.mod_small by lia. lia.
      * lia.
      * lia.
      * exists w'. rewrite Hrun, Ht, Ht1. repeat split; auto.
        intros x. rewrite Hc, Hc1.
        rewrite page_program_cells by (rewrite ?Hflen; lia).
        rewrite Hflen.
        rewrite (Z.mod_small (addr + Z.of_nat chunk)) by lia.
        destruct (Z.leb_spec (addr + Z.of_nat chunk) x) as [H1|H1];
          destruct (Z.ltb_spec x (addr + Z.of_nat chunk
                                  + Z.of_nat (rem - chunk))) as [H2|H2];
          destruct (Z.leb_spec addr x) as [H3|H3];
          destruct (Z.ltb_spec x (addr + Z.of_nat chunk)) as [H4|H4];
          destruct (Z.ltb_spec x (addr + Z.of_nat rem)) as [H5|H5];
          simpl; try reflexivity; try lia.
        -- f_equal. lia.
        -- rewrite nth_firstn, nth_skipn.
           replace (Z.to_nat (x - addr) <? chunk)%nat with true
             by (symmetry; apply Nat.ltb_lt; lia).
           reflexivity.
Qed.

Lemma write_buffer_cells fuel (w : world device) addr data :
  busy (dev w) = O ->
  (t_wr (dev w) < fuel)%nat ->
  0 <= addr ->
  addr + Z.of_nat (List.length data) <= CAPACITY ->
  exists w',
    eeprom_write_buffer dummy fuel w addr data (List.length data) = Some w'
    /\ busy (dev w') = O
    /\ t_wr (dev w') = t_wr (dev w)
    /\ contents (dev w') addr (List.length data) = data
    /\ forall x,
         x < addr \/ addr + Z.of_nat (List.length data) <= x ->
         cells (dev w') x = cells (dev w) x.
Proof.
  intros Hbusy Hfuel Haddr Hcap.
  destruct (write_loop_cells (List.length data) fuel w addr data O
              (List.length data) Hbusy Hfuel Haddr Hcap)
    as (w' & Hrun & Hb & Ht & Hc); [simpl; lia|lia|].
  exists w'. repeat split; auto.
  - unfold contents.
    transitivity (map (fun i => nth i data 0) (seq 0 (List.length data)));
      [|apply map_nth_seq].
    apply map_ext_in. intros i Hi. apply in_seq in Hi.
    rewrite Hc.
    replace (addr <=? addr + Z.of_nat i) with true
      by (symmetry; apply Z.leb_le; lia).
    replace (addr + Z.of_nat i <? addr + Z.of_nat (List.length data))
      with true by (symmetry; apply Z.ltb_lt; lia).
    simpl. f_equal. lia.
  - intros x Hx. rewrite Hc.
    destruct (Z.leb_spec addr x), (Z.ltb_spec x (addr + Z.of_nat (List.length data)));
      simpl; try reflexivity; lia.
Qed.

End OnDevice.

Lemma read_ready m p t len nostop :
  read (mkDevice m p O t) AT24C256_ADDRESS len nostop
  = (mkDevice m ((p + Z.of_nat len) mod CAPACITY) O t,
     Some (sequential_read m p len)).
Proof. reflexivity. Qed.

Lemma sequential_read_length m a len :
  List.length (sequential_read m a len) = len.
Proof. unfold sequential_read. rewrite length_map, length_seq. reflexivity. Qed.

Lemma sequential_read_inside (d : device) addr len :
  0 <= addr ->
  addr + Z.of_nat len <= CAPACITY ->
  sequential_read (cells d) (addr mod CAPACITY) len = contents d addr len.
Proof.
  intros Haddr Hcap. unfold sequential_read, contents.
  apply map_ext_in. intros i Hi. apply in_seq in Hi.
  f_equal. unfold CAPACITY in *.
  rewrite Z.add_mod_idemp_l by lia.
  apply Z.mod_small. lia.
Qed.

(** A read from an idle device hands back the cells at the address. *)
Lemma read_buffer_ready (w : world device) addr buf len :
  busy (dev w) = O ->
  0 <= addr ->
  addr + Z.of_nat len <= CAPACITY ->
  snd (eeprom_read_buffer w addr buf len)
  = overwrite buf (contents (dev w) addr len)
  /\ cells (dev (fst (eeprom_read_buffer w addr buf len))) = cells (dev w)
  /\ busy (dev (fst (eeprom_read_buffer w addr buf len))) = O
  /\ t_wr (dev (fst (eeprom_read_buffer w addr buf len))) = t_wr (dev w).
Proof.
  destruct w as [[m p b t] l]. simpl. intros -> Haddr Hcap.
  unfold eeprom_read_buffer, i2c_write_blocking.
  cbn [bus_write bus dev]. rewrite write_ready_address.
  unfold i2c_read_blocking. cbn [bus_read bus dev]. rewrite read_ready.
  cbn [fst snd dev cells busy t_wr].
  rewrite firstn_all2 by (rewrite sequential_read_length; lia).
  rewrite address_bytes_big_endian by (unfold CAPACITY in *; lia).
  rewrite (sequential_read_inside (mkDevice m p O t)) by assumption.
  auto.
Qed.

End At24c256Facts.

(** ** Round trip *)

(** C1.  Round trip over the device.  On an idle AT24C256 whose write
    cycle lasts fewer refused polls than the budget, for every [offset]
    and [data] with [offset + length data <= CAPACITY],
    [eeprom_write_buffer offset data] returns and a following
    [eeprom_read_buffer] of the same range fills [buf] with [data]. *)
Theorem eeprom_write_read_round_trip
        (dummy : Z) (fuel : nat) (w : world At24c256.device)
        (offset : Z) (data buf : list Z) :
  At24c256.busy (dev w) = O ->
  (At24c256.t_wr (dev w) < fuel)%nat ->
  0 <= offset ->
  offset + Z.of_nat (List.length data) <= At24c256.CAPACITY ->
  List.length buf = List.length data ->
  exists w',
    eeprom_write_buffer dummy fuel w offset data (List.length data) = Some w'
    /\ snd (eeprom_read_buffer w' offset buf (List.length data)) = data.
Proof.
  intros Hbusy Hfuel Hoff Hcap Hbuf.
  destruct (At24c256Facts.write_buffer_cells dummy fuel w offset data
              Hbusy Hfuel Hoff Hcap) as (w' & Hrun & Hb & _ & Hcont & _).
  exists w'. split; [exact Hrun|].
  destruct (At24c256Facts.read_buffer_ready w' offset buf (List.length data)
              Hb Hoff Hcap) as (Hread & _).
  rewrite Hread, Hcont. apply overwrite_all. exact Hbuf.
Qed.

Lemma eeprom_write_read_round_trip_witness :
  exists w',
    eeprom_write_buffer 0 10 w0 60 [1; 2; 3; 4; 5; 6] 6 = Some w'
    /\ snd (eeprom_read_buffer w' 60 [0; 0; 0; 0; 0; 0] 6)
       = [1; 2; 3; 4; 5; 6].
Proof.
  apply (eeprom_write_read_round_trip 0 10 w0 60 [1; 2; 3; 4; 5; 6]
                                      [0; 0; 0; 0; 0; 0]).
  - reflexivity.
  - simpl. lia.
  - lia.
  - unfold At24c256.CAPACITY. simpl. lia.
  - reflexivity.
Defined.

(** ** Requests beyond the capacity *)

(** C2, as the spec states it, fails: a two-byte request at 32767 runs past
    [CAPACITY], yet the read puts its two transactions on the bus, and the
    write returns normally after sending both bytes, the second one
    addressed past the end of the device. *)
Lemma out_of_range_request_reaches_the_bus :
  32767 + 2 > At24c256.CAPACITY
  /\ List.length
       (bus_transactions (log (fst (eeprom_read_buffer w0 32767 [0; 0] 2))))
     = 2%nat
  /\ option_map (fun w => data_writes (log w))
                (eeprom_write_buffer 0 10 w0 32767 [1; 2] 2)
     = Some [(32767, [1]); (32768, [2])].
Proof.
  split; [unfold At24c256.CAPACITY; lia|].
  split; reflexivity.
Qed.

(** C2, amended.  The driver has no range check and no error result.  For
    every request with [addr + length > CAPACITY] the read issues its
    dummy write and its read transaction, and the write returns after
    sending every byte of the request in the page segments of the paging
    rule. *)
Theorem out_of_range_request_carried_out
        (dummy : Z) (fuel : nat) (w : world At24c256.device)
        (addr : Z) (data buf : list Z) :
  addr + Z.of_nat (List.length data) > At24c256.CAPACITY ->
  0 <= addr < 65536 ->
  At24c256.busy (dev w) = O ->
  (At24c256.t_wr (dev w) < fuel)%nat ->
  (exists r1 r2,
      log (fst (eeprom_read_buffer w addr buf (List.length data)))
      = log w
        ++ [I2cWrite AT24C256_ADDRESS
              [Z.land (Z.shiftr addr 8) 0xFF; Z.land addr 0xFF] true r1;
            I2cRead AT24C256_ADDRESS (List.length data) false r2])
  /\ (exists w' evs,
         eeprom_write_buffer dummy fuel w addr data (List.length data)
         = Some w'
         /\ log w' = log w ++ evs
         /\ data_writes evs = spec_write_segments addr data
         /\ concat (map snd (data_writes evs)) = data).
Proof.
  intros _ Haddr Hbusy Hfuel. split.
  - unfold eeprom_read_buffer.
    pose proof (i2c_write_blocking_log w AT24C256_ADDRESS
                  [Z.land (Z.shiftr addr 8) 0xFF; Z.land addr 0xFF] true)
      as Hlog1.
    destruct (i2c_write_blocking w AT24C256_ADDRESS
                [Z.land (Z.shiftr addr 8) 0xFF; Z.land addr 0xFF] true)
      as [w1 r1].
    destruct (i2c_read_blocking_log w1 AT24C256_ADDRESS buf
                (List.length data) false) as [r2 Hlog2].
    destruct (i2c_read_blocking w1 AT24C256_ADDRESS buf (List.length data)
                false) as [[w2 buf'] ret].
    simpl in *. exists r1, r2.
    rewrite Hlog2, Hlog1, <- app_assoc. reflexivity.
  - destruct (At24c256Facts.write_loop_returns dummy (List.length data) fuel
                w addr data O (List.length data) Hbusy Hfuel (le_n _))
      as (w' & Hrun & _).
    destruct (write_buffer_segments dummy fuel w w' addr data Haddr Hrun)
      as (evs & Hlog & Hsegs).
    exists w', evs. repeat split; auto.
    rewrite Hsegs. apply page_segments_concat. lia.
Qed.

Lemma out_of_range_request_carried_out_witness :
  32767 + Z.of_nat (List.length [1; 2]) > At24c256.CAPACITY
  /\ exists w' evs,
      eeprom_write_buffer 0 10 w0 32767 [1; 2] (List.length [1; 2]) = Some w'
      /\ log w' = log w0 ++ evs
      /\ data_writes evs = spec_write_segments 32767 [1; 2]
      /\ concat (map snd (data_writes evs)) = [1; 2].
Proof.
  split.
  - unfold At24c256.CAPACITY. simpl. lia.
  - apply (out_of_range_request_carried_out 0 10 w0 32767 [1; 2] [0; 0]).
    + unfold At24c256.CAPACITY. simpl. lia.
    + lia.
    + reflexivity.
    + simpl. lia.
Defined.

(** ** Paged writes *)

(** C3.  Page splitting.  On any bus, the data-carrying transactions of a
    returned [eeprom_write_buffer addr data] are exactly the segments of
    the paging rule ([chunk = min(remaining, P - (offset mod P))], P = 64),
    each immediately followed by its ready barrier, and none carries more
    than [P - (offset mod P)] bytes; on an idle AT24C256 the call does
    return; and [eeprom_write_buffer 60 [1;2;3;4;5;6]] sends exactly
    (60, [1;2;3;4]) then (64, [5;6]). *)
Theorem write_buffer_paged :
  (forall (D : Type) (B : Bus D) (dummy : Z) (fuel : nat) (w w' : world D)
          (addr : Z) (data : list Z),
      0 <= addr < 65536 ->
      eeprom_write_buffer dummy fuel w addr data (List.length data) = Some w' ->
      exists evs,
        log w' = log w ++ evs
        /\ write_cycles dummy
             (map wire_payload (spec_write_segments addr data)) evs
        /\ data_writes evs = spec_write_segments addr data
        /\ Forall fits_page (data_writes evs))
  /\ (forall (dummy : Z) (fuel : nat) (w : world At24c256.device)
             (addr : Z) (data : list Z),
         At24c256.busy (dev w) = O ->
         (At24c256.t_wr (dev w) < fuel)%nat ->
         exists w',
           eeprom_write_buffer dummy fuel w addr data (List.length data)
           = Some w')
  /\ (forall dummy : Z,
         option_map (fun w => data_writes (log w))
                    (eeprom_write_buffer dummy 10 w0 60 [1; 2; 3; 4; 5; 6] 6)
         = Some [(60, [1; 2; 3; 4]); (64, [5; 6])]).
Proof.
  split; [|split].
  - intros D B dummy fuel w w' addr data Haddr Hrun.
    destruct (write_buffer_cycles dummy fuel w w' addr data Hrun)
      as (evs & Hlog & Hcyc).
    pose proof (page_segments_wf (List.length data) addr data Haddr) as Hwf.
    fold (spec_write_segments addr data) in Hwf.
    assert (Hsegs : data_writes evs = spec_write_segments addr data)
      by (eapply data_writes_cycles; eassumption).
    exists evs. repeat split; auto.
    rewrite Hsegs. eapply Forall_impl; [|exact Hwf].
    intros seg (_ & _ & Hfit). exact Hfit.
  - intros dummy fuel w addr data Hbusy Hfuel.
    destruct (At24c256Facts.write_loop_returns dummy (List.length data) fuel
                w addr data O (List.length data) Hbusy Hfuel (le_n _))
      as (w' & Hrun & _).
    exists w'. exact Hrun.
  - intros dummy. reflexivity.
Qed.

Lemma write_buffer_paged_witness :
  exists w' evs,
    eeprom_write_buffer 0 10 w0 62 [7; 8; 9] 3 = Some w'
    /\ log w' = log w0 ++ evs
    /\ data_writes evs = spec_write_segments 62 [7; 8; 9]
    /\ Forall fits_page (data_writes evs).
Proof.
  destruct write_buffer_paged as (Hany & Hreturns & _).
  destruct (Hreturns 0 10%nat w0 62 [7; 8; 9]) as [w' Hrun].
  - reflexivity.
  - simpl. lia.
  - destruct (Hany At24c256.device At24c256.bus 0 10%nat w0 w' 62 [7; 8; 9])
      as (evs & Hlog & _ & Hsegs & Hfit).
    + lia.
    + exact Hrun.
    + exists w', evs. auto.
Defined.

(** ** Reads *)

(** C4.  A read is one dummy write and one read.  On any bus and for every
    16-bit [addr] and every [len], [eeprom_read_buffer] adds exactly two
    events to the log: a write to the device of the two address bytes, high
    byte first, with [nostop] set (bus held, repeated start), directly
    followed by one read of [len] bytes that ends with a stop; nothing is
    split at page boundaries. *)
Theorem read_buffer_is_one_dummy_write_and_one_read
        (D : Type) (B : Bus D) (w : world D) (addr : Z) (buf : list Z)
        (len : nat) :
  0 <= addr < 65536 ->
  exists hi lo r1 r2,
    log (fst (eeprom_read_buffer w addr buf len))
    = log w ++ [I2cWrite AT24C256_ADDRESS [hi; lo] true r1;
                I2cRead AT24C256_ADDRESS len false r2]
    /\ 0 <= hi < 256 /\ 0 <= lo < 256
    /\ hi * 256 + lo = addr.
Proof.
  intros Haddr.
  exists (Z.land (Z.shiftr addr 8) 0xFF), (Z.land addr 0xFF).
  unfold eeprom_read_buffer.
  pose proof (i2c_write_blocking_log w AT24C256_ADDRESS
                [Z.land (Z.shiftr addr 8) 0xFF; Z.land addr 0xFF] true)
    as Hlog1.
  destruct (i2c_write_blocking w AT24C256_ADDRESS
              [Z.land (Z.shiftr addr 8) 0xFF; Z.land addr 0xFF] true)
    as [w1 r1].
  destruct (i2c_read_blocking_log w1 AT24C256_ADDRESS buf len false)
    as [r2 Hlog2].
  destruct (i2c_read_blocking w1 AT24C256_ADDRESS buf len false)
    as [[w2 buf'] ret].
  simpl in *. exists r1, r2.
  split; [rewrite Hlog2, Hlog1, <- app_assoc; reflexivity|].
  pose proof (address_bytes_range addr) as [Hhi Hlo].
  repeat split; try lia.
  apply address_bytes_big_endian. exact Haddr.
Qed.

Lemma read_buffer_is_one_dummy_write_and_one_read_witness :
  0 <= 0x1234 < 65536
  /\ exists hi lo r1 r2,
      log (fst (eeprom_read_buffer w0 0x1234 (repeat 0 100) 100))
      = log w0 ++ [I2cWrite AT24C256_ADDRESS [hi; lo] true r1;
                   I2cRead AT24C256_ADDRESS 100 false r2]
      /\ 0 <= hi < 256 /\ 0 <= lo < 256
      /\ hi * 256 + lo = 0x1234.
Proof.
  split; [lia|].
  apply (read_buffer_is_one_dummy_write_and_one_read
           At24c256.device At24c256.bus w0 0x1234 (repeat 0 100) 100).
  lia.
Defined.

Example read_0x1234_log :
  log (fst (eeprom_read_buffer w0 0x1234 (repeat 0 100) 100))
  = [I2cWrite 0x50 [0x12; 0x34] true 2; I2cRead 0x50 100 false 100].
Proof. reflexivity. Qed.

(** ** Single-byte operations *)

Section ByteFacts.
Context {D : Type} {B : Bus D}.
Variable dummy : Z.

Lemma write_byte_as_page_write fuel (w : world D) mem_addr data :
  eeprom_write_byte dummy fuel w mem_addr data
  = _eeprom_write_page_raw dummy fuel w mem_addr [data] 1.
Proof. reflexivity. Qed.

Lemma write_byte_as_write_buffer fuel (w : world D) mem_addr data :
  eeprom_write_byte dummy fuel w mem_addr data
  = eeprom_write_buffer dummy fuel w mem_addr [data] 1.
Proof.
  rewrite write_byte_as_page_write.
  unfold eeprom_write_buffer. cbn [write_loop].
  change (0 <? 1)%nat with true. cbv iota.
  rewrite chunk_size_min.
  pose proof (space_in_page_pos mem_addr) as Hsp.
  replace (Nat.min 1 (Z.to_nat (PAGE_SIZE - mem_addr mod PAGE_SIZE)))
    with 1%nat by lia.
  rewrite skipn_O.
  destruct (_eeprom_write_page_raw dummy fuel w mem_addr [data] 1);
    reflexivity.
Qed.

Lemma read_byte_as_read_buffer (w : world D) mem_addr :
  eeprom_read_byte w mem_addr
  = (fst (eeprom_read_buffer w mem_addr [0] 1),
     nth 0 (snd (eeprom_read_buffer w mem_addr [0] 1)) 0).
Proof.
  unfold eeprom_read_byte, eeprom_read_buffer.
  destruct (i2c_write_blocking w AT24C256_ADDRESS _ true) as [w1 r1].
  destruct (i2c_read_blocking w1 AT24C256_ADDRESS [0] 1 false)
    as [[w2 rx] r2].
  reflexivity.
Qed.

(** The world after a read does not depend on what the buffer held. *)
Lemma read_buffer_world (w : world D) addr buf1 buf2 len :
  fst (eeprom_read_buffer w addr buf1 len)
  = fst (eeprom_read_buffer w addr buf2 len).
Proof.
  unfold eeprom_read_buffer.
  destruct (i2c_write_blocking w AT24C256_ADDRESS _ true) as [w1 r1].
  unfold i2c_read_blocking.
  destruct (bus_read (dev w1) AT24C256_ADDRESS len false) as [d [bytes|]];
    reflexivity.
Qed.

End ByteFacts.

Lemma read_buffer_log {D : Type} {B : Bus D} (w : world D) addr buf len :
  exists r1 r2,
    log (fst (eeprom_read_buffer w addr buf len))
    = log w ++ [I2cWrite AT24C256_ADDRESS
                  [Z.land (Z.shiftr addr 8) 0xFF; Z.land addr 0xFF] true r1;
                I2cRead AT24C256_ADDRESS len false r2].
Proof.
  unfold eeprom_read_buffer.
  pose proof (i2c_write_blocking_log w AT24C256_ADDRESS
                [Z.land (Z.shiftr addr 8) 0xFF; Z.land addr 0xFF] true)
    as Hlog1.
  destruct (i2c_write_blocking w AT24C256_ADDRESS
              [Z.land (Z.shiftr addr 8) 0xFF; Z.land addr 0xFF] true)
    as [w1 r1].
  destruct (i2c_read_blocking_log w1 AT24C256_ADDRESS buf len false)
    as [r2 Hlog2].
  destruct (i2c_read_blocking w1 AT24C256_ADDRESS buf len false)
    as [[w2 buf'] ret].
  simpl in *. exists r1, r2.
  rewrite Hlog2, Hlog1, <- app_assoc. reflexivity.
Qed.

Module ByteOnDevice.
Import At24c256.

Lemma read_byte_ready (w : world device) addr :
  busy (dev w) = O ->
  0 <= addr < CAPACITY ->
  snd (eeprom_read_byte w addr) = cells (dev w) addr
  /\ cells (dev (fst (eeprom_read_byte w addr))) = cells (dev w)
  /\ busy (dev (fst (eeprom_read_byte w addr))) = O
  /\ t_wr (dev (fst (eeprom_read_byte w addr))) = t_wr (dev w).
Proof.
  intros Hbusy Haddr.
  rewrite read_byte_as_read_buffer. cbn [fst snd].
  destruct (At24c256Facts.read_buffer_ready w addr [0] 1 Hbusy)
    as (Hread & Hcells & Hb & Ht); [lia|lia|].
  rewrite Hread. unfold contents, overwrite. simpl.
  rewrite Z.add_0_r. auto.
Qed.

Lemma write_byte_ready dummy fuel (w : world device) addr data :
  busy (dev w) = O ->
  (t_wr (dev w) < fuel)%nat ->
  0 <= addr < CAPACITY ->
  exists w',
    eeprom_write_byte dummy fuel w addr data = Some w'
    /\ cells (dev w') = store (cells (dev w)) addr data.
Proof.
  intros Hbusy Hfuel Haddr.
  rewrite write_byte_as_page_write.
  destruct (At24c256Facts.write_page_raw_returns dummy fuel w addr [data] 1
              Hbusy Hfuel) as (w' & Hrun & _ & _ & Hcells).
  exists w'. split; [exact Hrun|].
  rewrite Hcells.
  rewrite address_bytes_big_endian by (unfold CAPACITY in *; lia).
  rewrite Z.mod_small by lia. reflexivity.
Qed.

End ByteOnDevice.

(** C5.  Write only on change.  On an idle AT24C256, [eeprom_update_byte]
    first performs the read of the cell (dummy write, one-byte read).  If
    the stored byte equals [new_val] nothing follows and the cells are
    unchanged; otherwise exactly one write of the single byte follows,
    with its ready barrier, and the cell then holds [new_val]. *)
Theorem update_byte_writes_only_on_change
        (dummy : Z) (fuel : nat) (w : world At24c256.device)
        (addr new_val : Z) :
  At24c256.busy (dev w) = O ->
  (At24c256.t_wr (dev w) < fuel)%nat ->
  0 <= addr < At24c256.CAPACITY ->
  exists w' r1 r2 evs,
    eeprom_update_byte dummy fuel w addr new_val = Some w'
    /\ log w' = log w
                ++ [I2cWrite AT24C256_ADDRESS
                      [Z.land (Z.shiftr addr 8) 0xFF; Z.land addr 0xFF]
                      true r1;
                    I2cRead AT24C256_ADDRESS 1 false r2]
                ++ evs
    /\ (At24c256.cells (dev w) addr = new_val ->
        evs = [] /\ At24c256.cells (dev w') = At24c256.cells (dev w))
    /\ (At24c256.cells (dev w) addr <> new_val ->
        exists ret probes,
          evs = I2cWrite AT24C256_ADDRESS
                  [Z.land (Z.shiftr addr 8) 0xFF; Z.land addr 0xFF; new_val]
                  false ret :: probes
          /\ barrier dummy probes
          /\ data_writes evs = [(addr, [new_val])]
          /\ At24c256.cells (dev w') addr = new_val).
Proof.
  intros Hbusy Hfuel Haddr.
  destruct (ByteOnDevice.read_byte_ready w addr Hbusy Haddr)
    as (Hold & Hcells & Hb & Ht).
  unfold eeprom_update_byte.
  pose proof (read_byte_as_read_buffer w addr) as Hrb.
  destruct (read_buffer_log w addr [0] 1) as (r1 & r2 & Hlog).
  destruct (eeprom_read_byte w addr) as [w1 old_val].
  injection Hrb as Hw1 _. rewrite <- Hw1 in Hlog.
  cbn [fst snd] in *. subst old_val.
  destruct (Z.eqb_spec (At24c256.cells (dev w) addr) new_val) as [Heq|Hne];
    cbn [negb].
  - exists w1, r1, r2, []. rewrite !app_nil_r.
    repeat split; auto. intros Hne. contradiction.
  - rewrite <- Ht in Hfuel.
    destruct (ByteOnDevice.write_byte_ready dummy fuel w1 addr new_val
                Hb Hfuel Haddr) as (w' & Hrun & Hcells').
    destruct (write_byte_cycle dummy fuel w1 w' addr new_val Hrun)
      as (ret & probes & Hlog' & Hbar).
    exists w', r1, r2,
      (I2cWrite AT24C256_ADDRESS
         [Z.land (Z.shiftr addr 8) 0xFF; Z.land addr 0xFF; new_val]
         false ret :: probes).
    split; [exact Hrun|]. split.
    + rewrite Hlog', Hlog, <- !app_assoc. reflexivity.
    + split; [intros Heq; contradiction|].
      intros _. exists ret, probes. repeat split; auto.
      * cbn [data_writes data_write].
        rewrite (data_writes_barrier dummy probes Hbar).
        rewrite address_bytes_big_endian
          by (unfold At24c256.CAPACITY in *; lia).
        reflexivity.
      * rewrite Hcells'. unfold At24c256.store. rewrite Z.eqb_refl.
        reflexivity.
Qed.

Lemma update_byte_writes_only_on_change_witness :
  exists w' r1 r2 evs,
    eeprom_update_byte 0 10 w0 100 0xAB = Some w'
    /\ log w' = log w0
                ++ [I2cWrite AT24C256_ADDRESS
                      [Z.land (Z.shiftr 100 8) 0xFF; Z.land 100 0xFF]
                      true r1;
                    I2cRead AT24C256_ADDRESS 1 false r2]
                ++ evs
    /\ (At24c256.cells (dev w0) 100 = 0xAB ->
        evs = [] /\ At24c256.cells (dev w') = At24c256.cells (dev w0))
    /\ (At24c256.cells (dev w0) 100 <> 0xAB ->
        exists ret probes,
          evs = I2cWrite AT24C256_ADDRESS
                  [Z.land (Z.shiftr 100 8) 0xFF; Z.land 100 0xFF; 0xAB]
                  false ret :: probes
          /\ barrier 0 probes
          /\ data_writes evs = [(100, [0xAB])]
          /\ At24c256.cells (dev w') 100 = 0xAB).
Proof.
  apply (update_byte_writes_only_on_change 0 10 w0 100 0xAB).
  - reflexivity.
  - simpl. lia.
  - unfold At24c256.CAPACITY. lia.
Defined.

Example update_byte_same_value_log :
  option_map log (eeprom_update_byte 0 10 w0 100 0xFF)
  = Some [I2cWrite 0x50 [0; 100] true 2; I2cRead 0x50 1 false 1].
Proof. reflexivity. Qed.

Example update_byte_new_value_log :
  option_map log (eeprom_update_byte 0 10 w0 100 0xAB)
  = Some [I2cWrite 0x50 [0; 100] true 2; I2cRead 0x50 1 false 1;
          I2cWrite 0x50 [0; 100; 0xAB] false 3;
          I2cWrite 0x50 [0] false (-1); SleepUs 100;
          I2cWrite 0x50 [0] false (-1); SleepUs 100;
          I2cWrite 0x50 [0] false (-1); SleepUs 100;
          I2cWrite 0x50 [0] false 1].
Proof. reflexivity. Qed.

(** ** The settings record and its checksum *)

Lemma fit_length (n : nat) (l : list Z) : List.length (fit n l) = n.
Proof.
  unfold fit. rewrite length_firstn, length_app, repeat_length. lia.
Qed.

Lemma bytes_of_settings_length (s : SystemSettings) :
  List.length (bytes_of_settings s) = sizeof_SystemSettings.
Proof.
  unfold bytes_of_settings.
  rewrite !length_app, fit_length. reflexivity.
Qed.

Lemma firstn_exact (l1 l2 : list Z) (n : nat) :
  List.length l1 = n -> firstn n (l1 ++ l2) = l1.
Proof.
  intros <-. rewrite firstn_app, Nat.sub_diag, firstn_all. simpl.
  apply app_nil_r.
Qed.

Lemma bytes_of_settings_body (s : SystemSettings) :
  firstn (sizeof_SystemSettings - 1) (bytes_of_settings s)
  = [byte_of (motor_offset s) 0; byte_of (motor_offset s) 1;
     byte_of (motor_offset s) 2; byte_of (motor_offset s) 3;
     byte_of (magic s) 0; byte_of (magic s) 1]
    ++ fit 32 (wifi_ssid s) ++ [volume s].
Proof.
  unfold bytes_of_settings.
  change [volume s; checksum s] with ([volume s] ++ [checksum s]).
  rewrite !app_assoc. apply firstn_exact.
  rewrite !length_app, fit_length. reflexivity.
Qed.

Lemma bytes_of_settings_last (s : SystemSettings) :
  bytes_of_settings s
  = firstn (sizeof_SystemSettings - 1) (bytes_of_settings s) ++ [checksum s].
Proof.
  rewrite bytes_of_settings_body. unfold bytes_of_settings.
  rewrite <- !app_assoc. reflexivity.
Qed.

Lemma firstn_as_nth (l : list Z) (d : Z) (n : nat) :
  (n <= List.length l)%nat ->
  map (fun i => nth i l d) (seq 0 n) = firstn n l.
Proof.
  intros Hn.
  rewrite <- (map_nth_seq (firstn n l) d).
  rewrite length_firstn, Nat.min_l by exact Hn.
  apply map_ext_in. intros i Hi. apply in_seq in Hi.
  rewrite nth_firstn.
  replace (i <? n)%nat with true by (symmetry; apply Nat.ltb_lt; lia).
  reflexivity.
Qed.

(** The byte-wide accumulator holds the sum modulo 256 all along. *)
Lemma checksum_fold (ptr : list Z) (idx : list nat) :
  forall acc,
    fold_left (fun sum i => (sum + nth i ptr 0) mod 256) idx (acc mod 256)
    = (acc + byte_sum (map (fun i => nth i ptr 0) idx)) mod 256.
Proof.
  induction idx as [|i idx IH]; intros acc.
  - simpl. rewrite Z.add_0_r. reflexivity.
  - simpl. rewrite Zplus_mod_idemp_l, IH. f_equal. lia.
Qed.

Lemma checksum_loop_sum (ptr : list Z) :
  (sizeof_SystemSettings - 1 <= List.length ptr)%nat ->
  checksum_loop ptr
  = byte_sum (firstn (sizeof_SystemSettings - 1) ptr) mod 256.
Proof.
  intros Hlen. unfold checksum_loop.
  change 0 with (0 mod 256) at 2.
  rewrite checksum_fold, firstn_as_nth by exact Hlen.
  reflexivity.
Qed.

Lemma calc_checksum_sum (s : SystemSettings) :
  calc_checksum s
  = byte_sum (firstn (sizeof_SystemSettings - 1) (bytes_of_settings s))
    mod 256.
Proof.
  apply checksum_loop_sum. rewrite bytes_of_settings_length.
  unfold sizeof_SystemSettings. lia.
Qed.

Lemma calc_checksum_with_checksum (s : SystemSettings) (c : Z) :
  calc_checksum (with_checksum s c) = calc_checksum s.
Proof.
  rewrite !calc_checksum_sum, !bytes_of_settings_body. reflexivity.
Qed.


Lemma checksum_with_checksum (s : SystemSettings) (c : Z) :
  checksum (with_checksum s c) = c.
Proof. reflexivity. Qed.

(** C6.  The checksum.  For every record, [calc_checksum] is the sum
    modulo 256 of the serialized bytes before the checksum byte, which is
    the last byte of the record; it is the same for any two records that
    agree on those bytes, and the value of the checksum field does not
    enter it. *)
Theorem calc_checksum_is_truncated_sum (s : SystemSettings) :
  calc_checksum s
  = byte_sum (firstn (sizeof_SystemSettings - 1) (bytes_of_settings s))
    mod 256
  /\ bytes_of_settings s
     = firstn (sizeof_SystemSettings - 1) (bytes_of_settings s)
       ++ [checksum s]
  /\ (forall c, calc_checksum (with_checksum s c) = calc_checksum s)
  /\ (forall s',
         firstn (sizeof_SystemSettings - 1) (bytes_of_settings s')
         = firstn (sizeof_SystemSettings - 1) (bytes_of_settings s) ->
         calc_checksum s' = calc_checksum s).
Proof.
  split; [apply calc_checksum_sum|].
  split; [apply bytes_of_settings_last|].
  split; [apply calc_checksum_with_checksum|].
  intros s' Hsame. rewrite !calc_checksum_sum, Hsame. reflexivity.
Qed.

Lemma calc_checksum_is_truncated_sum_witness :
  calc_checksum (with_checksum sample_settings 77)
  = calc_checksum sample_settings.
Proof.
  apply (proj2 (proj2 (proj2 (calc_checksum_is_truncated_sum sample_settings)))
           (with_checksum sample_settings 77)).
  reflexivity.
Defined.

Example sample_settings_bytes :
  bytes_of_settings sample_settings
  = [0xFE; 0xFF; 0xFF; 0xFF; 0x5A; 0xA5;
     72; 111; 109; 101; 78; 101; 116; 0; 0; 0; 0; 0; 0; 0; 0; 0;
     0; 0; 0; 0; 0; 0; 0; 0; 0; 0; 0; 0; 0; 0; 0; 0;
     80; 0].
Proof. reflexivity. Qed.

Example sample_settings_checksum : calc_checksum sample_settings = 250.
Proof. reflexivity. Qed.

Example sample_settings_decoded :
  settings_of_bytes (bytes_of_settings sample_settings)
  = {| motor_offset := -2; magic := MAGIC_CODE;
       wifi_ssid := fit 32 (c_string "HomeNet"); volume := 80;
       checksum := 0 |}.
Proof. reflexivity. Qed.

(** ** Saving and loading the settings *)

Lemma page_segments_nil (n : nat) (offset : Z) : page_segments n offset [] = [].
Proof. destruct n; reflexivity. Qed.

Lemma spec_write_segments_one_page (addr : Z) (data : list Z) :
  data <> [] ->
  addr mod PAGE_SIZE + Z.of_nat (List.length data) <= PAGE_SIZE ->
  spec_write_segments addr data = [(addr, data)].
Proof.
  intros Hne Hfit. unfold spec_write_segments.
  destruct (List.length data) as [|n] eqn:Hlen.
  - destruct data; [congruence | discriminate].
  - rewrite page_segments_step by exact Hne. cbv zeta.
    rewrite Hlen.
    replace (Nat.min (S n) (Z.to_nat (PAGE_SIZE - addr mod PAGE_SIZE)))
      with (S n) by lia.
    rewrite <- Hlen, firstn_all, skipn_all, page_segments_nil.
    reflexivity.
Qed.


Module SettingsOnDevice.
Import At24c256.

Lemma settings_save_on_device dummy fuel (w : world device) cs :
  busy (dev w) = O ->
  (t_wr (dev w) < fuel)%nat ->
  exists w' evs,
    settings_save dummy fuel w cs
    = Some (w', with_checksum cs (calc_checksum cs))
    /\ eeprom_write_buffer dummy fuel w SETTINGS_ADDR
         (bytes_of_settings (with_checksum cs (calc_checksum cs)))
         sizeof_SystemSettings = Some w'
    /\ log w' = log w ++ evs
    /\ data_writes evs
       = [(SETTINGS_ADDR,
           bytes_of_settings (with_checksum cs (calc_checksum cs)))]
    /\ contents (dev w') SETTINGS_ADDR sizeof_SystemSettings
       = bytes_of_settings (with_checksum cs (calc_checksum cs))
    /\ busy (dev w') = O
    /\ t_wr (dev w') = t_wr (dev w).
Proof.
  intros Hbusy Hfuel. unfold settings_save.
  set (cs' := with_checksum cs (calc_checksum cs)).
  pose proof (bytes_of_settings_length cs') as Hlen.
  rewrite <- Hlen.
  destruct (At24c256Facts.write_buffer_cells dummy fuel w SETTINGS_ADDR
              (bytes_of_settings cs') Hbusy Hfuel)
    as (w' & Hrun & Hb & Ht & Hcont & _).
  { unfold SETTINGS_ADDR. lia. }
  { rewrite Hlen. unfold SETTINGS_ADDR, CAPACITY, sizeof_SystemSettings.
    lia. }
  rewrite Hrun.
  destruct (write_buffer_segments dummy fuel w w' SETTINGS_ADDR
              (bytes_of_settings cs')) as (evs & Hlog & Hsegs).
  { unfold SETTINGS_ADDR. lia. }
  { exact Hrun. }
  exists w', evs. repeat split; auto.
  rewrite Hsegs. apply spec_write_segments_one_page.
  - intros E. rewrite E in Hlen. discriminate.
  - rewrite Hlen. unfold SETTINGS_ADDR, PAGE_SIZE, sizeof_SystemSettings.
    simpl. lia.
Qed.

End SettingsOnDevice.




Lemma contents_length (d : At24c256.device) (a : Z) (len : nat) :
  List.length (At24c256.contents d a len) = len.
Proof.
  unfold At24c256.contents. rewrite length_map, length_seq. reflexivity.
Qed.

Lemma byte_of_mod (v i : Z) :
  0 <= i -> byte_of v i = (v / 2 ^ (8 * i)) mod 256.
Proof.
  intros Hi. unfold byte_of.
  change 0xFF with (Z.ones 8).
  rewrite Z.land_ones, Z.shiftr_div_pow2 by lia. reflexivity.
Qed.

Lemma int32_bytes (b0 b1 b2 b3 : Z) :
  0 <= b0 < 256 -> 0 <= b1 < 256 -> 0 <= b2 < 256 -> 0 <= b3 < 256 ->
  let v := int32_of (b0 + 256 * b1 + 65536 * b2 + 16777216 * b3) in
  byte_of v 0 = b0 /\ byte_of v 1 = b1 /\ byte_of v 2 = b2
  /\ byte_of v 3 = b3.
Proof.
  intros H0 H1 H2 H3 v. subst v.
  rewrite !byte_of_mod by lia.
  change (2 ^ (8 * 0)) with 1. change (2 ^ (8 * 1)) with 256.
  change (2 ^ (8 * 2)) with 65536. change (2 ^ (8 * 3)) with 16777216.
  unfold int32_of.
  change (2 ^ 31) with 2147483648. change (2 ^ 32) with 4294967296.
  destruct (_ <? _); repeat split; Z.div_mod_to_equations; lia.
Qed.

Lemma uint16_bytes (b0 b1 : Z) :
  0 <= b0 < 256 -> 0 <= b1 < 256 ->
  byte_of (b0 + 256 * b1) 0 = b0 /\ byte_of (b0 + 256 * b1) 1 = b1.
Proof.
  intros H0 H1.
  rewrite !byte_of_mod by lia.
  change (2 ^ (8 * 0)) with 1. change (2 ^ (8 * 1)) with 256.
  split; Z.div_mod_to_equations; lia.
Qed.

Lemma fit_exact (n : nat) (l : list Z) : List.length l = n -> fit n l = l.
Proof. intros Hlen. unfold fit. apply firstn_exact. exact Hlen. Qed.

(** The record view loses nothing: 40 bytes decode to a record whose object
    representation is those 40 bytes. *)
Lemma bytes_of_settings_of_bytes (b : list Z) :
  List.length b = sizeof_SystemSettings ->
  Forall (fun x => 0 <= x < 256) b ->
  bytes_of_settings (settings_of_bytes b) = b.
Proof.
  intros Hlen Hbytes.
  destruct b as [|b0 [|b1 [|b2 [|b3 [|b4 [|b5 rest]]]]]]; try discriminate.
  repeat match goal with
         | H : Forall _ (_ :: _) |- _ => inversion H; clear H; subst
         end.
  unfold bytes_of_settings, settings_of_bytes.
  cbn [nth skipn motor_offset magic wifi_ssid volume checksum].
  destruct (int32_bytes b0 b1 b2 b3) as (-> & -> & -> & ->); try assumption.
  destruct (uint16_bytes b4 b5) as (-> & ->); try assumption.
  cbn [app]. do 6 f_equal.
  simpl in Hlen.
  assert (Hrest : List.length rest = 34%nat)
    by (unfold sizeof_SystemSettings in Hlen; lia).
  rewrite fit_exact by (rewrite length_firstn; lia).
  transitivity (firstn 32 rest ++ skipn 32 rest); [|apply firstn_skipn].
  f_equal.
  assert (Htl : List.length (skipn 32 rest) = 2%nat)
    by (rewrite length_skipn; lia).
  change (nth 32 rest 0) with (nth (32 + 0) rest 0).
  change (nth 33 rest 0) with (nth (32 + 1) rest 0).
  rewrite <- !nth_skipn.
  destruct (skipn 32 rest) as [|x [|y [|z tl]]]; try discriminate.
  reflexivity.
Qed.



Example load_saved_settings :
  option_map (fun r => (log (fst r), snd r))
             (settings_init 0 10 w_saved (load_defaults sample_settings))
  = Some ([I2cWrite 0x50 [0; 0] true 2; I2cRead 0x50 40 false 40],
          {| motor_offset := -2; magic := 0xA55A;
             wifi_ssid := fit 32 (c_string "HomeNet"); volume := 80;
             checksum := 250 |}).
Proof. vm_compute. reflexivity. Qed.

Example load_zeroed_device :
  option_map (fun r => (data_writes (log (fst r)), snd r))
             (settings_init 0 10 w_zero sample_settings)
  = Some ([(0, [0; 0; 0; 0; 0x5A; 0xA5;
                77; 121; 87; 105; 102; 105; 0; 0; 0; 0; 0; 0; 0; 0; 0; 0;
                0; 0; 0; 0; 0; 0; 0; 0; 0; 0; 0; 0; 0; 0; 0; 0;
                50; 134])],
          {| motor_offset := 0; magic := 0xA55A;
             wifi_ssid := fit 32 (c_string "MyWifi"); volume := 50;
             checksum := 134 |}).
Proof. vm_compute. reflexivity. Qed.

(** A stale identifier longer than the default survives behind the
    terminator of "MyWifi". *)
Example load_defaults_keeps_stale_tail :
  wifi_ssid (load_defaults sample_settings)
  = [77; 121; 87; 105; 102; 105; 0; 0].
Proof. reflexivity. Qed.

(** ** The ready barrier *)

Section Starvation.
Context {D : Type} {B : Bus D}.
Variable dummy : Z.
Hypothesis never_acknowledged :
  forall (d : D) src nostop,
    snd (bus_write d AT24C256_ADDRESS src nostop) < 0.

Lemma write_page_raw_starves fuel (w : world D) mem_addr data len :
  _eeprom_write_page_raw dummy fuel w mem_addr data len = None.
Proof.
  unfold _eeprom_write_page_raw.
  destruct (i2c_write_blocking w AT24C256_ADDRESS _ false) as [w1 ret].
  apply eeprom_wait_ready_starves. exact never_acknowledged.
Qed.

Lemma write_byte_starves fuel (w : world D) mem_addr data :
  eeprom_write_byte dummy fuel w mem_addr data = None.
Proof.
  rewrite write_byte_as_page_write. apply write_page_raw_starves.
Qed.

Lemma write_buffer_starves fuel (w : world D) addr data :
  data <> [] ->
  eeprom_write_buffer dummy fuel w addr data (List.length data) = None.
Proof.
  intros Hne. unfold eeprom_write_buffer.
  destruct data as [|b data]; [congruence|].
  cbn [List.length write_loop].
  change (0 <? S (List.length data))%nat with true. cbv iota.
  rewrite write_page_raw_starves. reflexivity.
Qed.

End Starvation.

Lemma probe_busy (dummy : Z) m p k t l :
  i2c_write_blocking (mkWorld (At24c256.mkDevice m p (S k) t) l)
                     AT24C256_ADDRESS [dummy] false
  = (mkWorld (At24c256.mkDevice m p k t)
             (l ++ [I2cWrite AT24C256_ADDRESS [dummy] false
                             PICO_ERROR_GENERIC]),
     PICO_ERROR_GENERIC).
Proof. reflexivity. Qed.

Lemma wait_ready_polls (dummy : Z) (k : nat) :
  forall fuel (w : world At24c256.device),
    At24c256.busy (dev w) = k ->
    ((fuel <= k)%nat -> eeprom_wait_ready dummy fuel w = None)
    /\ ((k < fuel)%nat ->
        exists w',
          eeprom_wait_ready dummy fuel w = Some w'
          /\ log w' = log w ++ refused_polls dummy k
                      ++ [I2cWrite AT24C256_ADDRESS [dummy] false 1]).
Proof.
  induction k as [|k IH]; intros fuel [[m p b t] l] Hbusy;
    simpl in Hbusy; subst b.
  - split; intros Hfuel.
    + assert (fuel = O) by lia. subst. reflexivity.
    + destruct fuel as [|fuel]; [lia|].
      eexists. split; reflexivity.
  - split; intros Hfuel.
    + destruct fuel as [|fuel]; [reflexivity|].
      cbn [eeprom_wait_ready]. rewrite probe_busy.
      change (PICO_ERROR_GENERIC <? 0) with true. cbv iota.
      apply IH; [reflexivity | lia].
    + destruct fuel as [|fuel]; [lia|].
      cbn [eeprom_wait_ready]. rewrite probe_busy.
      change (PICO_ERROR_GENERIC <? 0) with true. cbv iota.
      match goal with
      | |- context [eeprom_wait_ready dummy fuel ?w1] =>
          destruct (IH fuel w1 eq_refl) as [_ Hsome]
      end.
      destruct Hsome as (w' & Hrun & Hlog); [lia|].
      exists w'. split; [exact Hrun|].
      rewrite Hlog. unfold sleep_us. cbn [log dev].
      unfold refused_polls. cbn [repeat concat].
      rewrite <- !app_assoc. reflexivity.
Qed.

Lemma barrier_polled (dummy : Z) (evs : list event) :
  barrier dummy evs -> exists k, polled k evs.
Proof.
  induction 1 as [ret Hret | ret evs Hret _ [k Hk]].
  - exists O. apply polled_ack. split; [reflexivity | exact Hret].
  - exists (S k). apply polled_retry; [|exact Hk].
    split; [reflexivity | exact Hret].
Qed.

Lemma write_cycles_polled (dummy : Z) (srcs : list (list Z))
      (evs : list event) :
  write_cycles dummy srcs evs -> polled_cycles (fun _ => True) srcs evs.
Proof.
  induction 1 as [| src ret evs srcs rest Hbar _ IH]; [constructor|].
  destruct (barrier_polled dummy evs Hbar) as [k Hk].
  apply polled_cycles_cons with (k := k); auto.
Qed.

Lemma refused_polls_polled (dummy : Z) (k : nat) :
  polled k (refused_polls dummy k
            ++ [I2cWrite AT24C256_ADDRESS [dummy] false 1]).
Proof.
  induction k as [|k IH].
  - apply polled_ack. split; [reflexivity | lia].
  - unfold refused_polls. cbn [repeat concat app].
    apply polled_retry; [|exact IH].
    split; [reflexivity | unfold PICO_ERROR_GENERIC; lia].
Qed.

(** The write loop returns, and every turn is a write with its barrier,
    as soon as a page write does so from every state of an invariant. *)
Section WriteLoopTotal.
Context {D : Type} {B : Bus D}.
Variable dummy : Z.
Variable fuel : nat.
Variable inv : world D -> Prop.
Variable ok : nat -> Prop.
Hypothesis page_write_ok :
  forall (w : world D) mem_addr data len,
    inv w ->
    (1 <= len <= List.length data)%nat ->
    exists w' ret k evs,
      _eeprom_write_page_raw dummy fuel w mem_addr data len = Some w'
      /\ inv w'
      /\ log w' = log w
                  ++ I2cWrite AT24C256_ADDRESS
                       (Z.land (Z.shiftr mem_addr 8) 0xFF
                          :: Z.land mem_addr 0xFF :: firstn len data)
                       false ret
                  :: evs
      /\ ok k
      /\ polled k evs.

Lemma write_loop_total (iter : nat) :
  forall (w : world D) addr data offset remaining_len,
    inv w ->
    (offset + remaining_len <= List.length data)%nat ->
    (remaining_len <= iter)%nat ->
    exists w' evs,
      write_loop dummy iter fuel w addr data offset remaining_len = Some w'
      /\ inv w'
      /\ log w' = log w ++ evs
      /\ polled_cycles ok
           (map wire_payload
                (page_segments iter addr
                   (firstn remaining_len (skipn offset data))))
           evs.
Proof.
  induction iter as [|iter IH];
    intros w addr data offset remaining_len Hinv Hdata Hiter.
  - assert (remaining_len = O) by lia. subst.
    exists w, []. rewrite app_nil_r.
    repeat split; auto. constructor.
  - destruct remaining_len as [|r].
    + exists w, []. rewrite app_nil_r.
      repeat split; auto. constructor.
    + remember (S r) as remaining_len eqn:Hr.
      cbn [write_loop].
      replace (0 <? remaining_len)%nat with true
        by (symmetry; apply Nat.ltb_lt; lia).
      rewrite chunk_size_min.
      pose proof (space_in_page_pos addr) as Hsp.
      set (chunk := Nat.min remaining_len
                      (Z.to_nat (PAGE_SIZE - addr mod PAGE_SIZE))) in *.
      destruct (page_write_ok w addr (skipn offset data) chunk Hinv)
        as (w1 & ret & k & evs1 & Hpage & Hinv1 & Hlog1 & Hok & Hpolled).
      { rewrite length_skipn. lia. }
      rewrite Hpage.
      destruct (IH w1 ((addr + Z.of_nat chunk) mod 65536) data
                   (offset + chunk)%nat (remaining_len - chunk)%nat Hinv1)
        as (w' & evs2 & Hrun & Hinv' & Hlog2 & Hcyc); [lia|lia|].
      set (d := firstn remaining_len (skipn offset data)).
      assert (Hlen : List.length d = remaining_len).
      { subst d. rewrite length_firstn, length_skipn. lia. }
      assert (Hne : d <> []).
      { intros E. rewrite E in Hlen. simpl in Hlen. lia. }
      rewrite page_segments_step by exact Hne.
      rewrite Hlen. fold chunk. cbv zeta.
      assert (Hhead : firstn chunk d = firstn chunk (skipn offset data)).
      { subst d. rewrite firstn_firstn. f_equal. lia. }
      assert (Htail : skipn chunk d
                      = firstn (remaining_len - chunk)
                               (skipn (offset + chunk) data)).
      { subst d. rewrite skipn_firstn_comm, skipn_skipn.
        f_equal. f_equal. lia. }
      rewrite Hhead, Htail.
      exists w',
        (I2cWrite AT24C256_ADDRESS
           (wire_payload (addr, firstn chunk (skipn offset data)))
           false ret :: evs1 ++ evs2).
      split; [exact Hrun|]. split; [exact Hinv'|]. split.
      * rewrite Hlog2, Hlog1, <- app_assoc. reflexivity.
      * simpl map. apply polled_cycles_cons with (k := k); assumption.
Qed.

End WriteLoopTotal.

Module BarrierOnDevice.
Import At24c256.

(** A page write with data to an idle device: the write is taken, and the
    barrier that follows sees exactly [t_wr] refusals. *)
Lemma page_write_polled dummy fuel (w : world device) mem_addr data len :
  busy (dev w) = O ->
  (t_wr (dev w) < fuel)%nat ->
  (1 <= len <= List.length data)%nat ->
  exists w' evs,
    _eeprom_write_page_raw dummy fuel w mem_addr data len = Some w'
    /\ busy (dev w') = O
    /\ t_wr (dev w') = t_wr (dev w)
    /\ log w' = log w
                ++ I2cWrite AT24C256_ADDRESS
                     (Z.land (Z.shiftr mem_addr 8) 0xFF
                        :: Z.land mem_addr 0xFF :: firstn len data)
                     false (Z.of_nat (len + 2))
                :: evs
    /\ polled (t_wr (dev w)) evs.
Proof.
  destruct w as [[m p b t] l]. cbn [dev busy t_wr log].
  intros -> Hfuel Hlen.
  unfold _eeprom_write_page_raw. rewrite firstn_header.
  unfold i2c_write_blocking. cbn [bus_write bus dev log].
  assert (Hflen : List.length (firstn len data) = len)
    by (rewrite length_firstn; lia).
  destruct (firstn len data) as [|b0 bs] eqn:Hd;
    [simpl in Hflen; lia|].
  rewrite At24c256Facts.write_ready_data.
  match goal with
  | |- context [eeprom_wait_ready dummy fuel ?w1] =>
      destruct (proj2 (wait_ready_polls dummy t fuel w1 eq_refl) Hfuel)
        as (w' & Hrun & Hlog);
      destruct (At24c256Facts.wait_ready_returns dummy t fuel w1 eq_refl
                  Hfuel) as (w'' & Hrun' & Hdev)
  end.
  rewrite Hrun in Hrun'. injection Hrun' as <-.
  exists w', (refused_polls dummy t
              ++ [I2cWrite AT24C256_ADDRESS [dummy] false 1]).
  split; [exact Hrun|]. rewrite Hdev. cbn [dev busy t_wr].
  split; [reflexivity|]. split; [reflexivity|]. split.
  - rewrite Hlog. cbn [log]. rewrite <- app_assoc.
    cbn [List.length app]. rewrite <- Hflen.
    cbn [List.length].
    replace (Z.of_nat (S (S (S (List.length bs)))))
      with (Z.of_nat (S (List.length bs) + 2)) by lia.
    reflexivity.
  - apply refused_polls_polled.
Qed.

Lemma write_buffer_polled dummy fuel (w : world device) addr data :
  busy (dev w) = O ->
  (t_wr (dev w) < fuel)%nat ->
  exists w' evs,
    eeprom_write_buffer dummy fuel w addr data (List.length data) = Some w'
    /\ log w' = log w ++ evs
    /\ polled_cycles (eq (t_wr (dev w)))
         (map wire_payload (spec_write_segments addr data)) evs.
Proof.
  intros Hbusy Hfuel.
  destruct (write_loop_total dummy fuel
              (fun w1 => busy (dev w1) = O /\ t_wr (dev w1) = t_wr (dev w))
              (eq (t_wr (dev w)))) with
    (iter := List.length data) (w := w) (addr := addr) (data := data)
    (offset := O) (remaining_len := List.length data)
    as (w' & evs & Hrun & _ & Hlog & Hcyc).
  - intros w1 mem_addr d len [Hb Ht] Hlen.
    rewrite <- Ht in Hfuel.
    destruct (page_write_polled dummy fuel w1 mem_addr d len Hb Hfuel Hlen)
      as (w2 & evs & Hrun & Hb2 & Ht2 & Hlog & Hpolled).
    exists w2, (Z.of_nat (len + 2)), (t_wr (dev w1)), evs.
    repeat split; auto; congruence.
  - auto.
  - simpl. lia.
  - lia.
  - exists w', evs. rewrite skipn_O, firstn_all in Hcyc. auto.
Qed.

Lemma write_byte_out_of_budget dummy fuel (w : world device) addr data :
  busy (dev w) = O ->
  (fuel <= t_wr (dev w))%nat ->
  eeprom_write_byte dummy fuel w addr data = None.
Proof.
  destruct w as [[m p b t] l]. cbn [dev busy t_wr]. intros -> Hfuel.
  unfold eeprom_write_byte, i2c_write_blocking.
  cbn [bus_write bus dev log].
  rewrite At24c256Facts.write_ready_data.
  match goal with
  | |- eeprom_wait_ready dummy fuel ?w1 = None =>
      exact (proj1 (wait_ready_polls dummy t fuel w1 eq_refl) Hfuel)
  end.
Qed.

End BarrierOnDevice.

(** C9.  The ready barrier.  On an idle AT24C256, a page write, a byte
    write and a buffer write are sent and return once the budget exceeds
    the write cycle: each write transaction is taken by the device and is
    directly followed in the log by its barrier, exactly [t_wr] refused
    one-byte probes, each followed by a 100 us sleep, then the first
    acknowledged probe, after which the next transaction or the return
    comes; with a budget of [t_wr] polls or fewer the byte write does not
    return.  On any bus, whatever returns has this shape.  The polling has
    no bound: on a bus that never acknowledges none of them returns
    within any budget, and an AT24C256 that refuses [k] attempts is polled
    [k + 1] times, whatever [k]. *)
Theorem ready_barrier_follows_every_write :
  (forall (dummy : Z) (fuel : nat) (w : world At24c256.device),
      At24c256.busy (dev w) = O ->
      ((At24c256.t_wr (dev w) < fuel)%nat ->
       (forall mem_addr data len,
           (1 <= len <= List.length data)%nat ->
           exists w' evs,
             _eeprom_write_page_raw dummy fuel w mem_addr data len = Some w'
             /\ log w' = log w
                         ++ I2cWrite AT24C256_ADDRESS
                              (Z.land (Z.shiftr mem_addr 8) 0xFF
                                 :: Z.land mem_addr 0xFF :: firstn len data)
                              false (Z.of_nat (len + 2))
                         :: evs
             /\ polled (At24c256.t_wr (dev w)) evs)
       /\ (forall mem_addr data,
              exists w' evs,
                eeprom_write_byte dummy fuel w mem_addr data = Some w'
                /\ log w' = log w
                            ++ I2cWrite AT24C256_ADDRESS
                                 [Z.land (Z.shiftr mem_addr 8) 0xFF;
                                  Z.land mem_addr 0xFF; data]
                                 false 3
                            :: evs
                /\ polled (At24c256.t_wr (dev w)) evs)
       /\ (forall addr data,
              exists w' evs,
                eeprom_write_buffer dummy fuel w addr data (List.length data)
                = Some w'
                /\ log w' = log w ++ evs
                /\ polled_cycles (eq (At24c256.t_wr (dev w)))
                     (map wire_payload (spec_write_segments addr data)) evs))
      /\ ((fuel <= At24c256.t_wr (dev w))%nat ->
          forall mem_addr data,
            eeprom_write_byte dummy fuel w mem_addr data = None))
  /\ (forall (D : Type) (B : Bus D) (dummy : Z) (fuel : nat) (w w' : world D)
             (mem_addr : Z) (data : list Z) (len : nat),
         _eeprom_write_page_raw dummy fuel w mem_addr data len = Some w' ->
         exists ret k evs,
           log w' = log w
                    ++ I2cWrite AT24C256_ADDRESS
                         (Z.land (Z.shiftr mem_addr 8) 0xFF
                            :: Z.land mem_addr 0xFF :: firstn len data)
                         false ret
                    :: evs
           /\ polled k evs)
  /\ (forall (D : Type) (B : Bus D) (dummy : Z) (fuel : nat) (w w' : world D)
             (mem_addr data : Z),
         eeprom_write_byte dummy fuel w mem_addr data = Some w' ->
         exists ret k evs,
           log w' = log w
                    ++ I2cWrite AT24C256_ADDRESS
                         [Z.land (Z.shiftr mem_addr 8) 0xFF;
                          Z.land mem_addr 0xFF; data]
                         false ret
                    :: evs
           /\ polled k evs)
  /\ (forall (D : Type) (B : Bus D) (dummy : Z) (fuel : nat) (w w' : world D)
             (addr : Z) (data : list Z),
         eeprom_write_buffer dummy fuel w addr data (List.length data)
         = Some w' ->
         exists evs,
           log w' = log w ++ evs
           /\ polled_cycles (fun _ => True)
                (map wire_payload (spec_write_segments addr data)) evs)
  /\ (forall (D : Type) (B : Bus D) (dummy : Z),
         (forall (d : D) src nostop,
             snd (bus_write d AT24C256_ADDRESS src nostop) < 0) ->
         forall (fuel : nat) (w : world D),
           eeprom_wait_ready dummy fuel w = None
           /\ (forall mem_addr data,
                  eeprom_write_byte dummy fuel w mem_addr data = None)
           /\ (forall addr data,
                  data <> [] ->
                  eeprom_write_buffer dummy fuel w addr data
                                      (List.length data) = None))
  /\ (forall (dummy : Z) (k fuel : nat) (w : world At24c256.device),
         At24c256.busy (dev w) = k ->
         ((fuel <= k)%nat -> eeprom_wait_ready dummy fuel w = None)
         /\ ((k < fuel)%nat ->
             exists w' evs,
               eeprom_wait_ready dummy fuel w = Some w'
               /\ log w' = log w ++ evs
               /\ polled k evs)).
Proof.
  split; [|split; [|split; [|split; [|split]]]].
  - intros dummy fuel w Hbusy. split.
    + intros Hfuel. split; [|split].
      * intros mem_addr data len Hlen.
        destruct (BarrierOnDevice.page_write_polled dummy fuel w mem_addr
                    data len Hbusy Hfuel Hlen)
          as (w' & evs & Hrun & _ & _ & Hlog & Hpolled).
        exists w', evs. auto.
      * intros mem_addr data.
        rewrite write_byte_as_page_write.
        destruct (BarrierOnDevice.page_write_polled dummy fuel w mem_addr
                    [data] 1 Hbusy Hfuel)
          as (w' & evs & Hrun & _ & _ & Hlog & Hpolled);
          [simpl; lia|].
        exists w', evs. auto.
      * intros addr data.
        apply BarrierOnDevice.write_buffer_polled; assumption.
    + intros Hfuel mem_addr data.
      apply BarrierOnDevice.write_byte_out_of_budget; assumption.
  - intros D B dummy fuel w w' mem_addr data len Hrun.
    destruct (write_page_raw_cycle dummy fuel w w' mem_addr data len Hrun)
      as (ret & evs & Hlog & Hbar).
    destruct (barrier_polled dummy evs Hbar) as [k Hk].
    exists ret, k, evs. auto.
  - intros D B dummy fuel w w' mem_addr data Hrun.
    destruct (write_byte_cycle dummy fuel w w' mem_addr data Hrun)
      as (ret & evs & Hlog & Hbar).
    destruct (barrier_polled dummy evs Hbar) as [k Hk].
    exists ret, k, evs. auto.
  - intros D B dummy fuel w w' addr data Hrun.
    destruct (write_buffer_cycles dummy fuel w w' addr data Hrun)
      as (evs & Hlog & Hcyc).
    exists evs. split; [exact Hlog|].
    apply (write_cycles_polled dummy). exact Hcyc.
  - intros D B dummy Hnever fuel w.
    split; [apply eeprom_wait_ready_starves; exact Hnever|].
    split.
    + intros mem_addr data. apply write_byte_starves. exact Hnever.
    + intros addr data Hne. apply write_buffer_starves; assumption.
  - intros dummy k fuel w Hbusy.
    destruct (wait_ready_polls dummy k fuel w Hbusy) as [Hnone Hsome].
    split; [exact Hnone|].
    intros Hfuel. destruct (Hsome Hfuel) as (w' & Hrun & Hlog).
    exists w', (refused_polls dummy k
                ++ [I2cWrite AT24C256_ADDRESS [dummy] false 1]).
    split; [exact Hrun|]. split; [exact Hlog|].
    apply refused_polls_polled.
Qed.

Lemma ready_barrier_follows_every_write_witness :
  (exists w' evs,
      eeprom_write_byte 0 10 w0 40 0xAB = Some w'
      /\ log w' = log w0
                  ++ I2cWrite AT24C256_ADDRESS
                       [Z.land (Z.shiftr 40 8) 0xFF; Z.land 40 0xFF; 0xAB]
                       false 3
                  :: evs
      /\ polled 3 evs)
  /\ (exists w' evs,
         eeprom_write_buffer 0 10 w0 60 [1; 2; 3; 4; 5; 6] 6 = Some w'
         /\ log w' = log w0 ++ evs
         /\ polled_cycles (eq 3%nat)
              (map wire_payload (spec_write_segments 60 [1; 2; 3; 4; 5; 6]))
              evs
         /\ exists evs',
             log w' = log w0 ++ evs'
             /\ polled_cycles (fun _ => True)
                  (map wire_payload
                       (spec_write_segments 60 [1; 2; 3; 4; 5; 6]))
                  evs')
  /\ eeprom_write_byte 0 3 w0 40 0xAB = None
  /\ (forall fuel : nat,
         eeprom_write_byte 0 fuel (mkWorld Unplugged.nothing []) 40 0xAB
         = None)
  /\ eeprom_wait_ready 0 5 (mkWorld (At24c256.mkDevice (fun _ => 0) 0 5 5) [])
     = None
  /\ exists w' evs,
      eeprom_wait_ready 0 6 (mkWorld (At24c256.mkDevice (fun _ => 0) 0 5 5) [])
      = Some w'
      /\ log w' = [] ++ evs
      /\ polled 5 evs.
Proof.
  destruct ready_barrier_follows_every_write
    as (Hdevice & _ & _ & Hbuffer & Hnever & Hpolls).
  destruct (Hdevice 0 10%nat w0 eq_refl) as [Hreturns _].
  destruct Hreturns as (_ & Hbyte & Hbuf); [simpl; lia|].
  destruct (Hdevice 0 3%nat w0 eq_refl) as [_ Hstuck].
  split; [exact (Hbyte 40 0xAB)|].
  split.
  { destruct (Hbuf 60 [1; 2; 3; 4; 5; 6]) as (w' & evs & Hrun & Hlog & Hcyc).
    exists w', evs. split; [exact Hrun|]. split; [exact Hlog|].
    split; [exact Hcyc|].
    exact (Hbuffer At24c256.device At24c256.bus 0 10%nat w0 w' 60
                   [1; 2; 3; 4; 5; 6] Hrun). }
  split; [apply Hstuck; simpl; lia|].
  split; [|split].
  - intros fuel.
    refine (proj1 (proj2 (Hnever Unplugged.device Unplugged.bus 0 _ fuel
                            (mkWorld Unplugged.nothing []))) 40 0xAB).
    intros d src nostop. simpl. unfold PICO_ERROR_GENERIC. lia.
  - refine (proj1 (Hpolls 0 5%nat 5%nat
                     (mkWorld (At24c256.mkDevice (fun _ => 0) 0 5 5) [])
                     eq_refl) _).
    lia.
  - refine (proj2 (Hpolls 0 5%nat 6%nat
                     (mkWorld (At24c256.mkDevice (fun _ => 0) 0 5 5) [])
                     eq_refl) _).
    lia.
Defined.

(** ** The byte operations against the buffer operations *)

(** C10.  One-byte wrappers.  On any bus and in any state,
    [eeprom_write_byte addr v] and [eeprom_write_buffer addr [v] 1] give
    the same result: the same log, barrier included, the same device
    state, and the same starvation.  [eeprom_read_byte addr] leaves the
    world that a one-byte [eeprom_read_buffer] leaves, and returns the byte
    that [eeprom_read_buffer] puts into a one-byte buffer initialised to 0
    as [rx_data] is; on an idle AT24C256 it is the byte put into any
    one-byte buffer. *)
Theorem byte_operations_are_one_byte_buffer_operations :
  (forall (D : Type) (B : Bus D) (dummy : Z) (fuel : nat) (w : world D)
          (addr v : Z),
      eeprom_write_byte dummy fuel w addr v
      = eeprom_write_buffer dummy fuel w addr [v] 1)
  /\ (forall (D : Type) (B : Bus D) (w : world D) (addr : Z) (buf : list Z),
         fst (eeprom_read_byte w addr)
         = fst (eeprom_read_buffer w addr buf 1))
  /\ (forall (D : Type) (B : Bus D) (w : world D) (addr : Z),
         snd (eeprom_read_byte w addr)
         = nth 0 (snd (eeprom_read_buffer w addr [0] 1)) 0)
  /\ (forall (w : world At24c256.device) (addr b : Z),
         At24c256.busy (dev w) = O ->
         0 <= addr < At24c256.CAPACITY ->
         snd (eeprom_read_byte w addr)
         = nth 0 (snd (eeprom_read_buffer w addr [b] 1)) 0).
Proof.
  split; [|split; [|split]].
  - intros D B dummy fuel w addr v. apply write_byte_as_write_buffer.
  - intros D B w addr buf.
    rewrite read_byte_as_read_buffer. cbn [fst].
    apply read_buffer_world.
  - intros D B w addr. rewrite read_byte_as_read_buffer. reflexivity.
  - intros w addr b Hbusy Haddr.
    destruct (ByteOnDevice.read_byte_ready w addr Hbusy Haddr) as (Hbyte & _).
    destruct (At24c256Facts.read_buffer_ready w addr [b] 1 Hbusy)
      as (Hread & _); [lia|lia|].
    rewrite Hbyte, Hread.
    unfold At24c256.contents, overwrite. simpl.
    rewrite Z.add_0_r. reflexivity.
Qed.

Lemma byte_operations_are_one_byte_buffer_operations_witness :
  snd (eeprom_read_byte w_saved 4)
  = nth 0 (snd (eeprom_read_buffer w_saved 4 [7] 1)) 0.
Proof.
  apply (proj2 (proj2 (proj2 byte_operations_are_one_byte_buffer_operations))
           w_saved 4 7).
  - reflexivity.
  - unfold At24c256.CAPACITY. lia.
Defined.

Example read_byte_of_saved_magic : snd (eeprom_read_byte w_saved 4) = 0x5A.
Proof. vm_compute. reflexivity. Qed.

(** With no acknowledgement the two reads part: [rx_data] starts at 0, a
    caller's buffer keeps what it held. *)
Example read_byte_unplugged :
  snd (eeprom_read_byte (mkWorld Unplugged.nothing []) 4) = 0
  /\ snd (eeprom_read_buffer (mkWorld Unplugged.nothing []) 4 [7] 1) = [7].
Proof. split; reflexivity. Qed.

(** ** The bus scan *)

Lemma reserved_addr_table :
  forallb (fun a => Bool.eqb (reserved_addr a) ((a <? 8) || (120 <=? a)))
          (map Z.of_nat (seq 0 128)) = true.
Proof. vm_compute. reflexivity. Qed.

Lemma seven_bit_address (addr : Z) :
  0 <= addr < 128 -> In addr (map Z.of_nat (seq 0 128)).
Proof.
  intros Ha. apply in_map_iff. exists (Z.to_nat addr).
  split; [lia|]. apply in_seq. lia.
Qed.

(** X1.  Among the 7-bit addresses, [reserved_addr] holds exactly for 0 to
    7 and 120 to 127 (0x78 to 0x7F). *)
Theorem reserved_addr_is_the_two_reserved_bands (addr : Z) :
  0 <= addr < 128 ->
  (reserved_addr addr = true <-> addr < 8 \/ 120 <= addr).
Proof.
  intros Ha.
  pose proof (proj1 (forallb_forall _ _) reserved_addr_table addr
                (seven_bit_address addr Ha)) as Hrow.
  apply Bool.eqb_prop in Hrow. rewrite Hrow.
  rewrite Bool.orb_true_iff, Z.ltb_lt, Z.leb_le. reflexivity.
Qed.

Lemma reserved_addr_is_the_two_reserved_bands_witness :
  reserved_addr 0x50 = true <-> 0x50 < 8 \/ 120 <= 0x50.
Proof.
  apply (reserved_addr_is_the_two_reserved_bands 0x50). lia.
Defined.

Section ScanFacts.
Context {D : Type} {B : Bus D}.
Variable rxdata : Z.

Lemma scan_step_log (w : world D) (out : string) (addr : Z) :
  exists evs,
    log (fst (scan_step rxdata (w, out) addr)) = log w ++ evs
    /\ map read_request evs
       = map (fun a => Some (a, 1%nat, false))
             (filter (fun a => negb (reserved_addr a)) [addr]).
Proof.
  unfold scan_step. cbn [filter].
  destruct (reserved_addr addr); cbn [negb].
  - exists []. rewrite app_nil_r. split; reflexivity.
  - destruct (i2c_read_blocking_log w addr [rxdata] 1 false) as [ret Hlog].
    destruct (i2c_read_blocking w addr [rxdata] 1 false) as [[w' buf] r].
    cbn [fst] in *. exists [I2cRead addr 1 false ret].
    split; [exact Hlog | reflexivity].
Qed.

Lemma scan_fold_log (addrs : list Z) :
  forall (w : world D) (out : string),
  exists evs,
    log (fst (fold_left (scan_step rxdata) addrs (w, out))) = log w ++ evs
    /\ map read_request evs
       = map (fun a => Some (a, 1%nat, false))
             (filter (fun a => negb (reserved_addr a)) addrs).
Proof.
  induction addrs as [|a addrs IH]; intros w out.
  - exists []. rewrite app_nil_r. split; reflexivity.
  - cbn [fold_left].
    destruct (scan_step_log w out a) as (evs1 & Hlog1 & Hreq1).
    destruct (scan_step rxdata (w, out) a) as [w1 out1].
    cbn [fst] in Hlog1.
    destruct (IH w1 out1) as (evs2 & Hlog2 & Hreq2).
    exists (evs1 ++ evs2). split.
    + rewrite Hlog2, Hlog1, app_assoc. reflexivity.
    + rewrite map_app, Hreq1, Hreq2, <- map_app. f_equal.
      cbn [filter]. destruct (negb (reserved_addr a)); reflexivity.
Qed.

End ScanFacts.

(** X2.  On any bus, [scan_i2c_bus] puts on the bus exactly one read of one
    byte, ended by a stop, for each of the addresses 8 to 119 in rising
    order, and nothing else: no write, no sleep, and no transaction to a
    reserved address. *)
Theorem scan_probes_each_unreserved_address_once
        (D : Type) (B : Bus D) (rxdata : Z) (w : world D) :
  exists evs,
    log (fst (scan_i2c_bus rxdata w)) = log w ++ evs
    /\ map read_request evs
       = map (fun a => Some (Z.of_nat a, 1%nat, false)) (seq 8 112).
Proof.
  unfold scan_i2c_bus.
  match goal with
  | |- context [fold_left (scan_step rxdata) ?addrs (w, ?out)] =>
      destruct (scan_fold_log rxdata addrs w out) as (evs & Hlog & Hreq);
      destruct (fold_left (scan_step rxdata) addrs (w, out)) as [w' out']
  end.
  cbn [fst] in *. exists evs. split; [exact Hlog|].
  rewrite Hreq. vm_compute. reflexivity.
Qed.

(** X3.  On an idle AT24C256, whatever its cells hold, the scan prints the
    grid with the single mark at 0x50 and leaves the cells, the idle
    state and the write-cycle length as they were; on a bus with nothing
    on it the grid has no mark. *)
Theorem scan_finds_the_eeprom_only
        (rxdata : Z) (w : world At24c256.device) :
  At24c256.busy (dev w) = O ->
  snd (scan_i2c_bus rxdata w) = scan_grid (Z.eqb 0x50)
  /\ At24c256.cells (dev (fst (scan_i2c_bus rxdata w)))
     = At24c256.cells (dev w)
  /\ At24c256.busy (dev (fst (scan_i2c_bus rxdata w))) = O
  /\ At24c256.t_wr (dev (fst (scan_i2c_bus rxdata w)))
     = At24c256.t_wr (dev w)
  /\ snd (scan_i2c_bus rxdata (mkWorld Unplugged.nothing []))
     = scan_grid (fun _ => false).
Proof.
  destruct w as [[m p b t] l]. cbn [dev At24c256.busy]. intros ->.
  repeat split; vm_compute; reflexivity.
Qed.

Lemma scan_finds_the_eeprom_only_witness :
  snd (scan_i2c_bus 0 w_zero) = scan_grid (Z.eqb 0x50).
Proof.
  apply (scan_finds_the_eeprom_only 0 w_zero). reflexivity.
Defined.

Example scan_row_of_the_eeprom :
  scan_row (Z.eqb 0x50) 5
  = ("50 @ . . . . . . . . . . . . . . . " ++ newline)%string.
Proof. reflexivity. Qed.

(** ** The record and its bytes *)

Lemma int32_value (m : Z) :
  - 2 ^ 31 <= m < 2 ^ 31 ->
  int32_of (byte_of m 0 + 256 * byte_of m 1 + 65536 * byte_of m 2
            + 16777216 * byte_of m 3) = m.
Proof.
  intros Hm. rewrite !byte_of_mod by lia.
  change (2 ^ (8 * 0)) with 1. change (2 ^ (8 * 1)) with 256.
  change (2 ^ (8 * 2)) with 65536. change (2 ^ (8 * 3)) with 16777216.
  unfold int32_of.
  change (2 ^ 31) with 2147483648 in *. change (2 ^ 32) with 4294967296.
  destruct (Z.ltb_spec
              (m / 1 mod 256 + 256 * (m / 256 mod 256)
               + 65536 * (m / 65536 mod 256)
               + 16777216 * (m / 16777216 mod 256)) 2147483648);
    Z.div_mod_to_equations; lia.
Qed.

Lemma uint16_value (m : Z) :
  0 <= m < 65536 -> byte_of m 0 + 256 * byte_of m 1 = m.
Proof.
  intros Hm. rewrite !byte_of_mod by lia.
  change (2 ^ (8 * 0)) with 1. change (2 ^ (8 * 1)) with 256.
  Z.div_mod_to_equations. lia.
Qed.

Lemma settings_of_bytes_of_settings (s : SystemSettings) :
  well_formed s -> settings_of_bytes (bytes_of_settings s) = s.
Proof.
  destruct s as [mo mg ssid vol ck].
  unfold well_formed. cbn [motor_offset magic wifi_ssid].
  intros (Hmo & Hmg & Hssid).
  unfold settings_of_bytes, bytes_of_settings.
  cbn [motor_offset magic wifi_ssid volume checksum app nth skipn].
  rewrite int32_value, uint16_value by assumption.
  rewrite (fit_exact 32 ssid Hssid).
  rewrite (firstn_exact ssid [vol; ck] 32 Hssid).
  rewrite !app_nth2 by lia. rewrite Hssid. reflexivity.
Qed.

(** X4.  The record and its 40-byte object representation determine each
    other: a record whose fields hold values of their C types is read back
    from its bytes, and 40 bytes are given back by the record they decode
    to. *)
Theorem settings_bytes_round_trip :
  (forall s : SystemSettings,
      well_formed s -> settings_of_bytes (bytes_of_settings s) = s)
  /\ (forall b : list Z,
         List.length b = sizeof_SystemSettings ->
         Forall (fun x => 0 <= x < 256) b ->
         bytes_of_settings (settings_of_bytes b) = b).
Proof.
  split.
  - apply settings_of_bytes_of_settings.
  - apply bytes_of_settings_of_bytes.
Qed.

Lemma settings_bytes_round_trip_witness :
  settings_of_bytes
    (bytes_of_settings (settings_of_bytes (bytes_of_settings sample_settings)))
  = settings_of_bytes (bytes_of_settings sample_settings).
Proof.
  apply (proj1 settings_bytes_round_trip
           (settings_of_bytes (bytes_of_settings sample_settings))).
  unfold well_formed. split; [|split].
  - vm_compute. split; [discriminate | reflexivity].
  - vm_compute. split; [discriminate | reflexivity].
  - reflexivity.
Defined.

(** ** Loading, again and after a save *)

Lemma repaired_settings_valid (stored : SystemSettings) :
  settings_valid (repaired_settings stored) = true.
Proof.
  unfold settings_valid, repaired_settings.
  rewrite checksum_with_checksum, calc_checksum_with_checksum.
  rewrite !Z.eqb_refl. reflexivity.
Qed.

Lemma decoded_identifier_length (raw : list Z) :
  List.length raw = sizeof_SystemSettings ->
  List.length (wifi_ssid (settings_of_bytes raw)) = 32%nat.
Proof.
  intros Hlen. unfold settings_of_bytes. cbn [wifi_ssid].
  rewrite length_firstn, length_skipn, Hlen. reflexivity.
Qed.

Lemma repaired_settings_well_formed (stored : SystemSettings) :
  List.length (wifi_ssid stored) = 32%nat ->
  well_formed (repaired_settings stored).
Proof.
  intros Hlen. unfold well_formed, repaired_settings.
  split; [|split].
  - cbn [motor_offset with_checksum load_defaults]. lia.
  - cbn [magic with_checksum load_defaults]. unfold MAGIC_CODE. lia.
  - unfold with_checksum, load_defaults, strcpy, overwrite.
    cbn [wifi_ssid]. rewrite length_app, length_skipn, Hlen. reflexivity.
Qed.

Lemma contents_same_cells (d1 d2 : At24c256.device) (a : Z) (len : nat) :
  At24c256.cells d1 = At24c256.cells d2 ->
  At24c256.contents d1 a len = At24c256.contents d2 a len.
Proof. intros Hc. unfold At24c256.contents. rewrite Hc. reflexivity. Qed.

Module InitOnDevice.
Import At24c256.

(** Both ways out of [settings_init] on an idle device. *)
Lemma settings_init_on_device dummy fuel (w : world device) cur :
  busy (dev w) = O ->
  (t_wr (dev w) < fuel)%nat ->
  let stored :=
    settings_of_bytes (contents (dev w) SETTINGS_ADDR sizeof_SystemSettings) in
  exists w' evs,
    settings_init dummy fuel w cur
    = Some (w', if settings_valid stored then stored
                else repaired_settings stored)
    /\ log w' = log w ++ evs
    /\ busy (dev w') = O
    /\ t_wr (dev w') = t_wr (dev w)
    /\ (settings_valid stored = true ->
        cells (dev w') = cells (dev w)
        /\ exists r1 r2,
            evs = [I2cWrite AT24C256_ADDRESS [0; 0] true r1;
                   I2cRead AT24C256_ADDRESS sizeof_SystemSettings false r2])
    /\ (settings_valid stored = false ->
        contents (dev w') SETTINGS_ADDR sizeof_SystemSettings
        = bytes_of_settings (repaired_settings stored)).
Proof.
  intros Hbusy Hfuel stored.
  unfold settings_init.
  destruct (At24c256Facts.read_buffer_ready w SETTINGS_ADDR
              (bytes_of_settings cur) sizeof_SystemSettings Hbusy)
    as (Hread & Hcells & Hb & Ht).
  { unfold SETTINGS_ADDR. lia. }
  { unfold SETTINGS_ADDR, CAPACITY, sizeof_SystemSettings. lia. }
  destruct (read_buffer_log w SETTINGS_ADDR (bytes_of_settings cur)
              sizeof_SystemSettings) as (r1 & r2 & Hlog).
  change [Z.land (Z.shiftr SETTINGS_ADDR 8) 255; Z.land SETTINGS_ADDR 255]
    with [0; 0] in Hlog.
  rewrite overwrite_all in Hread
    by (rewrite bytes_of_settings_length, contents_length; reflexivity).
  destruct (eeprom_read_buffer w SETTINGS_ADDR (bytes_of_settings cur)
              sizeof_SystemSettings) as [w1 buf].
  cbn [fst snd] in *. subst buf. fold stored.
  unfold settings_valid.
  destruct (magic stored =? MAGIC_CODE);
    [destruct (checksum stored =? calc_checksum stored)|];
    cbn [negb orb andb].
  - exists w1, [I2cWrite AT24C256_ADDRESS [0; 0] true r1;
                I2cRead AT24C256_ADDRESS sizeof_SystemSettings false r2].
    split; [reflexivity|]. split; [exact Hlog|].
    split; [exact Hb|]. split; [exact Ht|].
    split; [|discriminate].
    intros _. split; [exact Hcells|]. exists r1, r2. reflexivity.
  - rewrite <- Ht in Hfuel.
    destruct (SettingsOnDevice.settings_save_on_device dummy fuel w1
                (load_defaults stored) Hb Hfuel)
      as (w' & evs & Hrun & _ & Hlog' & _ & Hcont & Hb' & Ht').
    exists w', ([I2cWrite AT24C256_ADDRESS [0; 0] true r1;
                 I2cRead AT24C256_ADDRESS sizeof_SystemSettings false r2]
                ++ evs).
    split; [exact Hrun|].
    split; [rewrite Hlog', Hlog, <- app_assoc; reflexivity|].
    split; [exact Hb'|]. split; [congruence|].
    split; [discriminate|]. intros _. exact Hcont.
  - rewrite <- Ht in Hfuel.
    destruct (SettingsOnDevice.settings_save_on_device dummy fuel w1
                (load_defaults stored) Hb Hfuel)
      as (w' & evs & Hrun & _ & Hlog' & _ & Hcont & Hb' & Ht').
    exists w', ([I2cWrite AT24C256_ADDRESS [0; 0] true r1;
                 I2cRead AT24C256_ADDRESS sizeof_SystemSettings false r2]
                ++ evs).
    split; [exact Hrun|].
    split; [rewrite Hlog', Hlog, <- app_assoc; reflexivity|].
    split; [exact Hb'|]. split; [congruence|].
    split; [discriminate|]. intros _. exact Hcont.
Qed.

(** After [settings_init] the device holds a valid record, and it is the
    one handed back. *)
Lemma settings_init_leaves_valid_record dummy fuel (w : world device) cur :
  busy (dev w) = O ->
  (t_wr (dev w) < fuel)%nat ->
  exists w' cs,
    settings_init dummy fuel w cur = Some (w', cs)
    /\ busy (dev w') = O
    /\ t_wr (dev w') = t_wr (dev w)
    /\ settings_of_bytes
         (contents (dev w') SETTINGS_ADDR sizeof_SystemSettings) = cs
    /\ settings_valid cs = true.
Proof.
  intros Hbusy Hfuel.
  destruct (settings_init_on_device dummy fuel w cur Hbusy Hfuel)
    as (w' & evs & Hrun & _ & Hb & Ht & Hvalid & Hrepair).
  cbv zeta in *.
  set (raw := contents (dev w) SETTINGS_ADDR sizeof_SystemSettings) in *.
  destruct (settings_valid (settings_of_bytes raw)) eqn:Hv.
  - destruct (Hvalid eq_refl) as (Hcells & _).
    exists w', (settings_of_bytes raw).
    split; [exact Hrun|]. split; [exact Hb|]. split; [exact Ht|].
    split; [|exact Hv].
    rewrite (contents_same_cells (dev w') (dev w)) by exact Hcells.
    reflexivity.
  - exists w', (repaired_settings (settings_of_bytes raw)).
    split; [exact Hrun|]. split; [exact Hb|]. split; [exact Ht|].
    split; [|apply repaired_settings_valid].
    rewrite (Hrepair eq_refl).
    apply settings_of_bytes_of_settings.
    apply repaired_settings_well_formed.
    apply decoded_identifier_length. apply contents_length.
Qed.

End InitOnDevice.

(** X5.  Loading heals once.  On an idle AT24C256, whatever the cells
    hold, a [settings_init] is followed by a device on which the next
    [settings_init] returns the same record, changes no cell and puts only
    its dummy write and its read on the bus. *)
Theorem settings_init_is_idempotent
        (dummy : Z) (fuel : nat) (w : world At24c256.device)
        (cur : SystemSettings) :
  At24c256.busy (dev w) = O ->
  (At24c256.t_wr (dev w) < fuel)%nat ->
  exists w1 cs,
    settings_init dummy fuel w cur = Some (w1, cs)
    /\ forall cur',
        exists w2 r1 r2,
          settings_init dummy fuel w1 cur' = Some (w2, cs)
          /\ At24c256.cells (dev w2) = At24c256.cells (dev w1)
          /\ log w2 = log w1
                      ++ [I2cWrite AT24C256_ADDRESS [0; 0] true r1;
                          I2cRead AT24C256_ADDRESS sizeof_SystemSettings
                                  false r2].
Proof.
  intros Hbusy Hfuel.
  destruct (InitOnDevice.settings_init_leaves_valid_record dummy fuel w cur
              Hbusy Hfuel) as (w1 & cs & Hrun & Hb & Ht & Hcs & Hv).
  exists w1, cs. split; [exact Hrun|].
  intros cur'. rewrite <- Ht in Hfuel.
  destruct (InitOnDevice.settings_init_on_device dummy fuel w1 cur' Hb Hfuel)
    as (w2 & evs & Hrun2 & Hlog2 & _ & _ & Hvalid & _).
  cbv zeta in *. rewrite Hcs in *. rewrite Hv in *.
  destruct (Hvalid eq_refl) as (Hcells & r1 & r2 & Hevs).
  exists w2, r1, r2. rewrite <- Hevs. auto.
Qed.

Lemma settings_init_is_idempotent_witness :
  exists w1 cs,
    settings_init 0 10 w_zero sample_settings = Some (w1, cs)
    /\ forall cur',
        exists w2 r1 r2,
          settings_init 0 10 w1 cur' = Some (w2, cs)
          /\ At24c256.cells (dev w2) = At24c256.cells (dev w1)
          /\ log w2 = log w1
                      ++ [I2cWrite AT24C256_ADDRESS [0; 0] true r1;
                          I2cRead AT24C256_ADDRESS sizeof_SystemSettings
                                  false r2].
Proof.
  apply (settings_init_is_idempotent 0 10 w_zero sample_settings).
  - reflexivity.
  - simpl. lia.
Defined.

Lemma with_checksum_well_formed (s : SystemSettings) (c : Z) :
  well_formed s -> well_formed (with_checksum s c).
Proof. intros H. exact H. Qed.

Lemma with_checksum_valid (s : SystemSettings) :
  magic s = MAGIC_CODE ->
  settings_valid (with_checksum s (calc_checksum s)) = true.
Proof.
  intros Hm. unfold settings_valid.
  rewrite checksum_with_checksum, calc_checksum_with_checksum, Z.eqb_refl.
  change (magic (with_checksum s (calc_checksum s))) with (magic s).
  rewrite Hm, Z.eqb_refl. reflexivity.
Qed.

Lemma data_writes_of_a_read (r1 r2 : Z) (len : nat) :
  data_writes [I2cWrite AT24C256_ADDRESS [0; 0] true r1;
               I2cRead AT24C256_ADDRESS len false r2] = [].
Proof. reflexivity. Qed.

(** X6.  What is saved is what is loaded.  On an idle AT24C256, after
    [settings_save] of a record that carries the magic marker and whose
    fields hold values of their C types, [settings_init] returns that
    record with the checksum [settings_save] gave it, and writes
    nothing. *)
Theorem saved_settings_are_loaded_back
        (dummy : Z) (fuel : nat) (w : world At24c256.device)
        (cs : SystemSettings) :
  At24c256.busy (dev w) = O ->
  (At24c256.t_wr (dev w) < fuel)%nat ->
  well_formed cs ->
  magic cs = MAGIC_CODE ->
  exists w1,
    settings_save dummy fuel w cs
    = Some (w1, with_checksum cs (calc_checksum cs))
    /\ forall cur,
        exists w2,
          settings_init dummy fuel w1 cur
          = Some (w2, with_checksum cs (calc_checksum cs))
          /\ At24c256.cells (dev w2) = At24c256.cells (dev w1)
          /\ data_writes (log w2) = data_writes (log w1).
Proof.
  intros Hbusy Hfuel Hwf Hmagic.
  destruct (SettingsOnDevice.settings_save_on_device dummy fuel w cs
              Hbusy Hfuel)
    as (w1 & evs & Hrun & _ & _ & _ & Hcont & Hb & Ht).
  exists w1. split; [exact Hrun|].
  intros cur. rewrite <- Ht in Hfuel.
  destruct (InitOnDevice.settings_init_on_device dummy fuel w1 cur Hb Hfuel)
    as (w2 & evs2 & Hrun2 & Hlog2 & _ & _ & Hvalid & _).
  cbv zeta in *. rewrite Hcont in *.
  rewrite settings_of_bytes_of_settings in *
    by (apply with_checksum_well_formed; exact Hwf).
  rewrite (with_checksum_valid cs Hmagic) in *.
  destruct (Hvalid eq_refl) as (Hcells & r1 & r2 & Hevs).
  exists w2. split; [exact Hrun2|]. split; [exact Hcells|].
  rewrite Hlog2, Hevs, data_writes_app, data_writes_of_a_read.
  apply app_nil_r.
Qed.

Lemma saved_settings_are_loaded_back_witness :
  exists w1,
    settings_save 0 10 w0
      (settings_of_bytes (bytes_of_settings sample_settings))
    = Some (w1,
            with_checksum
              (settings_of_bytes (bytes_of_settings sample_settings))
              (calc_checksum
                 (settings_of_bytes (bytes_of_settings sample_settings))))
    /\ forall cur,
        exists w2,
          settings_init 0 10 w1 cur
          = Some (w2,
                  with_checksum
                    (settings_of_bytes (bytes_of_settings sample_settings))
                    (calc_checksum
                       (settings_of_bytes
                          (bytes_of_settings sample_settings))))
          /\ At24c256.cells (dev w2) = At24c256.cells (dev w1)
          /\ data_writes (log w2) = data_writes (log w1).
Proof.
  apply (saved_settings_are_loaded_back 0 10 w0
           (settings_of_bytes (bytes_of_settings sample_settings))).
  - reflexivity.
  - simpl. lia.
  - unfold well_formed. split; [|split].
    + vm_compute. split; [discriminate | reflexivity].
    + vm_compute. split; [discriminate | reflexivity].
    + reflexivity.
  - reflexivity.
Defined.

(** ** A corrupted byte *)

Lemma split_at (l : list Z) (i : nat) :
  (i < List.length l)%nat ->
  l = firstn i l ++ nth i l 0 :: skipn (S i) l.
Proof.
  revert i. induction l as [|x l IH]; intros i Hi; simpl in Hi; [lia|].
  destruct i as [|i]; [reflexivity|].
  cbn [firstn nth skipn app]. f_equal. apply IH. lia.
Qed.

Lemma byte_sum_app (l1 l2 : list Z) :
  byte_sum (l1 ++ l2) = byte_sum l1 + byte_sum l2.
Proof.
  induction l1 as [|x l1 IH]; simpl; [reflexivity|]. rewrite IH. lia.
Qed.

Lemma Forall_firstn_skipn (P : Z -> Prop) (n : nat) (l : list Z) :
  Forall P l -> Forall P (firstn n l) /\ Forall P (skipn n l).
Proof.
  intros H. rewrite <- (firstn_skipn n l) in H.
  apply Forall_app in H. exact H.
Qed.

Lemma calc_checksum_of_bytes (raw : list Z) :
  List.length raw = sizeof_SystemSettings ->
  Forall (fun x => 0 <= x < 256) raw ->
  calc_checksum (settings_of_bytes raw)
  = byte_sum (firstn (sizeof_SystemSettings - 1) raw) mod 256.
Proof.
  intros Hlen Hbytes. rewrite calc_checksum_sum.
  rewrite bytes_of_settings_of_bytes by assumption. reflexivity.
Qed.

(** The checksum test on a 40-byte sequence laid out as prefix, one byte,
    suffix. *)
Lemma checksum_test_split (l1 l2 : list Z) (x : Z) :
  List.length (l1 ++ x :: l2) = sizeof_SystemSettings ->
  Forall (fun b => 0 <= b < 256) (l1 ++ x :: l2) ->
  exists k c : Z,
    forall y,
      0 <= y < 256 ->
      (checksum (settings_of_bytes (l1 ++ y :: l2))
       =? calc_checksum (settings_of_bytes (l1 ++ y :: l2)))
      = match l2 with
        | [] => y =? k mod 256
        | _ :: _ => c =? (k + y) mod 256
        end.
Proof.
  intros Hlen Hbytes.
  rewrite length_app in Hlen. cbn [List.length] in Hlen.
  unfold sizeof_SystemSettings in Hlen.
  apply Forall_app in Hbytes. destruct Hbytes as [H1 Hx2].
  apply Forall_cons_iff in Hx2. destruct Hx2 as [_ H2].
  destruct l2 as [|z l2].
  - exists (byte_sum l1), 0. intros y Hy.
    rewrite calc_checksum_of_bytes.
    + unfold settings_of_bytes. cbn [checksum].
      rewrite app_nth2 by (simpl in Hlen; lia).
      replace (39 - List.length l1)%nat with O by (simpl in Hlen; lia).
      cbn [nth].
      rewrite firstn_exact by (simpl in Hlen; unfold sizeof_SystemSettings; lia).
      reflexivity.
    + rewrite length_app. unfold sizeof_SystemSettings. simpl in *. lia.
    + apply Forall_app. split; [exact H1|]. constructor; [exact Hy|constructor].
  - set (n := List.length l1) in *.
    assert (Hn : (n + S (S (List.length l2)) = 40)%nat)
      by (cbn [List.length] in Hlen; lia).
    exists (byte_sum l1 + byte_sum (firstn (38 - n) (z :: l2))),
      (nth (38 - n) (z :: l2) 0).
    intros y Hy.
    rewrite calc_checksum_of_bytes.
    + unfold settings_of_bytes. cbn [checksum].
      change (sizeof_SystemSettings - 1)%nat with 39%nat.
      rewrite app_nth2 by (fold n; lia).
      rewrite firstn_app. fold n.
      rewrite (@firstn_all2 Z 39%nat l1) by (fold n; lia).
      replace (39 - n)%nat with (S (38 - n)) by lia.
      rewrite firstn_cons, byte_sum_app.
      change (byte_sum (y :: firstn (38 - n) (z :: l2)))
        with (y + byte_sum (firstn (38 - n) (z :: l2))).
      change (nth (S (38 - n)) (y :: z :: l2) 0)
        with (nth (38 - n) (z :: l2) 0).
      f_equal. f_equal. lia.
    + rewrite length_app. cbn [List.length]. fold n.
      unfold sizeof_SystemSettings. lia.
    + apply Forall_app. split; [exact H1|]. constructor; assumption.
Qed.

(** X7.  One wrong byte is caught.  Take 40 stored bytes that pass the test
    of [settings_init] (magic marker and checksum).  Replace any one of
    them, the checksum byte included, by a different byte: the record they
    decode to no longer passes, so [settings_init] will repair it. *)
Theorem single_byte_corruption_is_detected
        (raw : list Z) (i : nat) (b : Z) :
  List.length raw = sizeof_SystemSettings ->
  Forall (fun x => 0 <= x < 256) raw ->
  (i < sizeof_SystemSettings)%nat ->
  0 <= b < 256 ->
  b <> nth i raw 0 ->
  settings_valid (settings_of_bytes raw) = true ->
  settings_valid (settings_of_bytes (corrupt raw i b)) = false.
Proof.
  intros Hlen Hbytes Hi Hb Hne Hvalid.
  unfold corrupt.
  assert (Hsplit : raw = firstn i raw ++ nth i raw 0 :: skipn (S i) raw)
    by (apply split_at; lia).
  set (l1 := firstn i raw) in *. set (l2 := skipn (S i) raw) in *.
  set (a := nth i raw 0) in *.
  clearbody l1 l2 a. subst raw.
  assert (Ha : 0 <= a < 256).
  { apply Forall_app in Hbytes. destruct Hbytes as [_ Hx].
    apply Forall_cons_iff in Hx. tauto. }
  destruct (checksum_test_split l1 l2 a Hlen Hbytes) as (k & c & Htest).
  unfold settings_valid in *.
  apply Bool.andb_true_iff in Hvalid. destruct Hvalid as [_ Hsum].
  rewrite Htest in Hsum by exact Ha.
  rewrite Htest by exact Hb.
  apply Bool.andb_false_iff. right.
  destruct l2.
  - apply Z.eqb_eq in Hsum. apply Z.eqb_neq. lia.
  - apply Z.eqb_eq in Hsum. apply Z.eqb_neq.
    intros Hsame. rewrite Hsame in Hsum.
    Z.div_mod_to_equations. lia.
Qed.

Lemma single_byte_corruption_is_detected_witness :
  settings_valid
    (settings_of_bytes
       (corrupt (bytes_of_settings (with_checksum sample_settings 250)) 7 0))
  = false.
Proof.
  apply (single_byte_corruption_is_detected
           (bytes_of_settings (with_checksum sample_settings 250)) 7 0).
  - reflexivity.
  - vm_compute. repeat constructor; discriminate.
  - unfold sizeof_SystemSettings. lia.
  - lia.
  - vm_compute. discriminate.
  - vm_compute. reflexivity.
Defined.

(** ** [main] of the EEPROM example *)

Lemma scan_leaves_device_idle (rxdata : Z) (w : world At24c256.device) :
  At24c256.busy (dev w) = O ->
  snd (scan_i2c_bus rxdata w) = scan_grid (Z.eqb 0x50)
  /\ At24c256.cells (dev (fst (scan_i2c_bus rxdata w)))
     = At24c256.cells (dev w)
  /\ At24c256.busy (dev (fst (scan_i2c_bus rxdata w))) = O
  /\ At24c256.t_wr (dev (fst (scan_i2c_bus rxdata w)))
     = At24c256.t_wr (dev w).
Proof.
  destruct w as [[m p b t] l]. cbn [dev At24c256.busy]. intros ->.
  repeat split; vm_compute; reflexivity.
Qed.

Lemma write_byte_ready_state dummy fuel (w : world At24c256.device) addr data :
  At24c256.busy (dev w) = O ->
  (At24c256.t_wr (dev w) < fuel)%nat ->
  0 <= addr < At24c256.CAPACITY ->
  exists w',
    eeprom_write_byte dummy fuel w addr data = Some w'
    /\ At24c256.cells (dev w') = At24c256.store (At24c256.cells (dev w)) addr data
    /\ At24c256.busy (dev w') = O
    /\ At24c256.t_wr (dev w') = At24c256.t_wr (dev w).
Proof.
  intros Hbusy Hfuel Haddr.
  rewrite write_byte_as_page_write.
  destruct (At24c256Facts.write_page_raw_returns dummy fuel w addr [data] 1
              Hbusy Hfuel) as (w' & Hrun & Hb & Ht & Hcells).
  exists w'. repeat split; auto.
  rewrite Hcells.
  rewrite address_bytes_big_endian by (unfold At24c256.CAPACITY in *; lia).
  rewrite Z.mod_small by lia. reflexivity.
Qed.

Lemma contents_below_store (d1 d2 : At24c256.device)
      (a : Z) (len : nat) (x v : Z) :
  At24c256.cells d1 = At24c256.store (At24c256.cells d2) x v ->
  a + Z.of_nat len <= x ->
  At24c256.contents d1 a len = At24c256.contents d2 a len.
Proof.
  intros Hc Hx. unfold At24c256.contents. rewrite Hc.
  apply map_ext_in. intros i Hi. apply in_seq in Hi.
  unfold At24c256.store.
  destruct (Z.eqb_spec (a + Z.of_nat i) x); [lia | reflexivity].
Qed.

(** X8.  The self-test of [main].  On an idle AT24C256, whatever the cells
    hold, [main] reaches its closing loop with: the scan grid marking 0x50
    alone; the settings read back from the device equal to the settings
    [settings_init] returned; the byte written at the address after the
    record read back as 0xAB, so the test passes; and the stored record
    still the loaded one after the byte test. *)
Theorem main_self_test_passes
        (dummy rxdata : Z) (fuel : nat) (w : world At24c256.device)
        (current_settings garbage : SystemSettings) :
  At24c256.busy (dev w) = O ->
  (At24c256.t_wr (dev w) < fuel)%nat ->
  exists r,
    main dummy rxdata fuel w current_settings garbage = Some r
    /\ scan_text r = scan_grid (Z.eqb 0x50)
    /\ test_read_settings r = loaded_settings r
    /\ read_val r = 0xAB
    /\ test_passed r = true
    /\ settings_of_bytes
         (At24c256.contents (dev (final r)) SETTINGS_ADDR
                            sizeof_SystemSettings)
       = loaded_settings r.
Proof.
  intros Hbusy Hfuel. unfold main.
  destruct (scan_leaves_device_idle rxdata w Hbusy)
    as (Htext & _ & Hb1 & Ht1).
  destruct (scan_i2c_bus rxdata w) as [w1 text]. cbn [fst snd] in *.
  rewrite <- Ht1 in Hfuel.
  destruct (InitOnDevice.settings_init_leaves_valid_record dummy fuel w1
              current_settings Hb1 Hfuel)
    as (w2 & cs & Hinit & Hb2 & Ht2 & Hcs & _).
  rewrite Hinit. rewrite <- Ht2 in Hfuel.
  destruct (At24c256Facts.read_buffer_ready w2 SETTINGS_ADDR
              (bytes_of_settings garbage) sizeof_SystemSettings Hb2)
    as (Hread & Hc3 & Hb3 & Ht3).
  { unfold SETTINGS_ADDR. lia. }
  { unfold SETTINGS_ADDR, At24c256.CAPACITY, sizeof_SystemSettings. lia. }
  rewrite overwrite_all in Hread
    by (rewrite bytes_of_settings_length, contents_length; reflexivity).
  destruct (eeprom_read_buffer w2 SETTINGS_ADDR (bytes_of_settings garbage)
              sizeof_SystemSettings) as [w3 buf].
  cbn [fst snd] in *. subst buf. rewrite <- Ht3 in Hfuel.
  assert (Hnext : 0 <= NEXT_BYTE_ADDR < At24c256.CAPACITY)
    by (unfold NEXT_BYTE_ADDR, SETTINGS_ADDR, sizeof_SystemSettings,
          At24c256.CAPACITY; lia).
  destruct (write_byte_ready_state dummy fuel w3 NEXT_BYTE_ADDR 0xAB
              Hb3 Hfuel Hnext) as (w4 & Hwrite & Hc4 & Hb4 & _).
  rewrite Hwrite.
  destruct (ByteOnDevice.read_byte_ready w4 NEXT_BYTE_ADDR Hb4 Hnext)
    as (Hrv & Hc5 & _).
  destruct (eeprom_read_byte w4 NEXT_BYTE_ADDR) as [w5 rv].
  cbn [fst snd] in *.
  assert (Hval : rv = 0xAB).
  { rewrite Hrv, Hc4. unfold At24c256.store. rewrite Z.eqb_refl.
    reflexivity. }
  eexists. split; [reflexivity|].
  cbn [scan_text test_read_settings loaded_settings read_val test_passed
       final].
  split; [exact Htext|]. split; [exact Hcs|]. split; [exact Hval|].
  split; [rewrite Hval; reflexivity|].
  rewrite <- Hcs. f_equal.
  rewrite (contents_same_cells (dev w5) (dev w4)) by exact Hc5.
  rewrite (contents_below_store (dev w4) (dev w3)
             SETTINGS_ADDR sizeof_SystemSettings NEXT_BYTE_ADDR 0xAB Hc4)
    by (unfold NEXT_BYTE_ADDR; lia).
  apply contents_same_cells. exact Hc3.
Qed.

Lemma main_self_test_passes_witness :
  exists r,
    main 0 0 10 w_zero sample_settings sample_settings = Some r
    /\ scan_text r = scan_grid (Z.eqb 0x50)
    /\ test_read_settings r = loaded_settings r
    /\ read_val r = 0xAB
    /\ test_passed r = true
    /\ settings_of_bytes
         (At24c256.contents (dev (final r)) SETTINGS_ADDR
                            sizeof_SystemSettings)
       = loaded_settings r.
Proof.
  apply (main_self_test_passes 0 0 10 w_zero sample_settings sample_settings).
  - reflexivity.
  - simpl. lia.
Defined.

(** ** More on the buffer write *)

(** X9.  A write stays in its range.  On an idle AT24C256, after an
    [eeprom_write_buffer] that lies inside the device, no cell outside
    [addr .. addr + len - 1] has changed, and a read of any range that does
    not overlap it returns what it returned before the write. *)
Theorem write_buffer_leaves_other_ranges
        (dummy : Z) (fuel : nat) (w : world At24c256.device)
        (addr : Z) (data : list Z) :
  At24c256.busy (dev w) = O ->
  (At24c256.t_wr (dev w) < fuel)%nat ->
  0 <= addr ->
  addr + Z.of_nat (List.length data) <= At24c256.CAPACITY ->
  exists w',
    eeprom_write_buffer dummy fuel w addr data (List.length data) = Some w'
    /\ (forall x,
           x < addr \/ addr + Z.of_nat (List.length data) <= x ->
           At24c256.cells (dev w') x = At24c256.cells (dev w) x)
    /\ (forall a n buf,
           0 <= a ->
           a + Z.of_nat n <= At24c256.CAPACITY ->
           a + Z.of_nat n <= addr
           \/ addr + Z.of_nat (List.length data) <= a ->
           snd (eeprom_read_buffer w' a buf n)
           = snd (eeprom_read_buffer w a buf n)).
Proof.
  intros Hbusy Hfuel Haddr Hcap.
  destruct (At24c256Facts.write_buffer_cells dummy fuel w addr data
              Hbusy Hfuel Haddr Hcap) as (w' & Hrun & Hb & _ & _ & Hframe).
  exists w'. split; [exact Hrun|]. split; [exact Hframe|].
  intros a n buf Ha Hn Hapart.
  destruct (At24c256Facts.read_buffer_ready w' a buf n Hb Ha Hn)
    as (Hread' & _).
  destruct (At24c256Facts.read_buffer_ready w a buf n Hbusy Ha Hn)
    as (Hread & _).
  rewrite Hread', Hread. f_equal.
  unfold At24c256.contents. apply map_ext_in.
  intros i Hi. apply in_seq in Hi. apply Hframe. lia.
Qed.

Lemma write_buffer_leaves_other_ranges_witness :
  exists w',
    eeprom_write_buffer 0 10 w_saved 40 [1; 2; 3] 3 = Some w'
    /\ snd (eeprom_read_buffer w' 0 (repeat 0 40) 40)
       = snd (eeprom_read_buffer w_saved 0 (repeat 0 40) 40).
Proof.
  destruct (write_buffer_leaves_other_ranges 0 10 w_saved 40 [1; 2; 3])
    as (w' & Hrun & _ & Hreads).
  - reflexivity.
  - vm_compute. lia.
  - lia.
  - unfold At24c256.CAPACITY. simpl. lia.
  - exists w'. split; [exact Hrun|].
    apply Hreads.
    + lia.
    + unfold At24c256.CAPACITY. lia.
    + left. lia.
Defined.

Lemma page_segments_rest (n : nat) (offset : Z) (data : list Z) :
  data <> [] ->
  let space := Z.to_nat (PAGE_SIZE - offset mod PAGE_SIZE) in
  ((List.length data <= space)%nat
   /\ page_segments (S n) offset data = [(offset, data)])
  \/ ((space < List.length data)%nat
      /\ skipn space data <> []
      /\ ((offset + Z.of_nat space) mod 65536) mod PAGE_SIZE = 0
      /\ page_segments (S n) offset data
         = (offset, firstn space data)
             :: page_segments n ((offset + Z.of_nat space) mod 65536)
                              (skipn space data)).
Proof.
  intros Hne space.
  rewrite page_segments_step by exact Hne. cbv zeta. fold space.
  pose proof (space_in_page_pos offset) as Hsp. fold space in Hsp.
  destruct (Nat.le_gt_cases (List.length data) space) as [Hle|Hgt].
  - left. split; [exact Hle|].
    rewrite Nat.min_l by exact Hle.
    rewrite firstn_all, skipn_all, page_segments_nil. reflexivity.
  - right. split; [exact Hgt|].
    rewrite Nat.min_r by lia.
    split; [|split; [|reflexivity]].
    + intros E.
      assert (Hl : List.length (skipn space data) = O)
        by (rewrite E; reflexivity).
      rewrite length_skipn in Hl. lia.
    + subst space. unfold PAGE_SIZE in *.
      pose proof (Z.mod_pos_bound offset 64 ltac:(lia)).
      rewrite Z2Nat.id by lia.
      Z.div_mod_to_equations. lia.
Qed.

Lemma page_segments_aligned (n : nat) :
  forall offset data,
    offset mod PAGE_SIZE = 0 ->
    Forall (fun seg => fst seg mod PAGE_SIZE = 0)
           (page_segments n offset data).
Proof.
  induction n as [|n IH]; intros offset data Hal; [constructor|].
  destruct data as [|b data]; [constructor|].
  destruct (page_segments_rest n offset (b :: data)) as [[_ ->]|(_ & _ & Hal' & ->)];
    try discriminate.
  - constructor; [exact Hal | constructor].
  - constructor; [exact Hal|]. apply IH. exact Hal'.
Qed.

Lemma page_segments_count (n : nat) :
  forall offset data,
    data <> [] ->
    (List.length data <= n)%nat ->
    Z.of_nat (List.length (page_segments n offset data))
    = (offset mod PAGE_SIZE + Z.of_nat (List.length data) + 63) / 64.
Proof.
  induction n as [|n IH]; intros offset data Hne Hlen.
  - destruct data; [congruence | simpl in Hlen; lia].
  - pose proof (Z.mod_pos_bound offset 64 ltac:(lia)) as Hmod.
    assert (Hpos : (1 <= List.length data)%nat).
    { destruct data; [congruence | simpl; lia]. }
    destruct (page_segments_rest n offset data Hne)
      as [[Hle ->]|(Hgt & Hrest & Hal & ->)]; unfold PAGE_SIZE in *.
    + cbn [List.length].
      apply Z.div_unique
        with (r := offset mod 64 + Z.of_nat (List.length data) - 1); lia.
    + cbn [List.length]. rewrite Nat2Z.inj_succ.
      rewrite IH by (try exact Hrest; rewrite length_skipn; lia).
      unfold PAGE_SIZE. rewrite Hal, length_skipn.
      rewrite Nat2Z.inj_sub by lia. rewrite Z2Nat.id by lia.
      replace (offset mod 64 + Z.of_nat (List.length data) + 63)
        with ((0 + (Z.of_nat (List.length data) - (64 - offset mod 64)) + 63)
              + 1 * 64) by lia.
      rewrite Z.div_add by lia. lia.
Qed.

Lemma page_segments_tail_aligned (n : nat) (offset : Z) (data : list Z) :
  Forall (fun seg => fst seg mod PAGE_SIZE = 0)
         (tl (page_segments n offset data)).
Proof.
  destruct n as [|n]; [constructor|].
  destruct data as [|b data]; [constructor|].
  destruct (page_segments_rest n offset (b :: data))
    as [[_ ->]|(_ & _ & Hal & ->)]; try discriminate.
  - constructor.
  - cbn [tl]. apply page_segments_aligned. exact Hal.
Qed.

(** X10.  How many page writes.  On any bus, a returned
    [eeprom_write_buffer] of [len > 0] bytes at a 16-bit [addr] has put
    exactly [ceil((addr mod 64 + len) / 64)] data-carrying writes on the
    bus, and every one after the first starts on a page boundary. *)
Theorem write_buffer_page_write_count
        (D : Type) (B : Bus D) (dummy : Z) (fuel : nat) (w w' : world D)
        (addr : Z) (data : list Z) :
  0 <= addr < 65536 ->
  data <> [] ->
  eeprom_write_buffer dummy fuel w addr data (List.length data) = Some w' ->
  exists evs,
    log w' = log w ++ evs
    /\ Z.of_nat (List.length (data_writes evs))
       = (addr mod PAGE_SIZE + Z.of_nat (List.length data) + 63) / 64
    /\ Forall (fun seg => fst seg mod PAGE_SIZE = 0) (tl (data_writes evs)).
Proof.
  intros Haddr Hne Hrun.
  destruct (write_buffer_segments dummy fuel w w' addr data Haddr Hrun)
    as (evs & Hlog & Hsegs).
  exists evs. split; [exact Hlog|]. rewrite Hsegs.
  split.
  - apply page_segments_count; [exact Hne | lia].
  - apply page_segments_tail_aligned.
Qed.

Lemma write_buffer_page_write_count_witness :
  exists w' evs,
    eeprom_write_buffer 0 10 w0 60 (repeat 7 70) 70 = Some w'
    /\ log w' = log w0 ++ evs
    /\ Z.of_nat (List.length (data_writes evs))
       = (60 mod PAGE_SIZE + Z.of_nat (List.length (repeat 7 70)) + 63) / 64
    /\ Forall (fun seg => fst seg mod PAGE_SIZE = 0) (tl (data_writes evs)).
Proof.
  destruct (eeprom_write_buffer 0 10 w0 60 (repeat 7 70) 70) as [w'|] eqn:Hrun;
    [|vm_compute in Hrun; discriminate].
  destruct (write_buffer_page_write_count At24c256.device At24c256.bus
              0 10%nat w0 w' 60 (repeat 7 70)) as (evs & Hlog & Hcount & Hal).
  - lia.
  - discriminate.
  - exact Hrun.
  - exists w', evs. auto.
Defined.

Example write_60_70_bytes_takes_three_page_writes :
  option_map (fun w => map (fun seg => (fst seg, List.length (snd seg)))
                           (data_writes (log w)))
             (eeprom_write_buffer 0 10 w0 60 (repeat 7 70) 70)
  = Some [(60, 4%nat); (64, 64%nat); (128, 2%nat)].
Proof. vm_compute. reflexivity. Qed.

(** ** When the device does not answer *)

Section SilentReads.
Context {D : Type} {B : Bus D}.
Hypothesis reads_never_acknowledged :
  forall (d : D) addr len nostop, snd (bus_read d addr len nostop) = None.

Lemma i2c_read_blocking_unanswered (w : world D) addr dst len nostop :
  snd (fst (i2c_read_blocking w addr dst len nostop)) = dst
  /\ snd (i2c_read_blocking w addr dst len nostop) = PICO_ERROR_GENERIC.
Proof.
  unfold i2c_read_blocking.
  pose proof (reads_never_acknowledged (dev w) addr len nostop) as Hnack.
  destruct (bus_read (dev w) addr len nostop) as [d [bytes|]];
    [discriminate|]. split; reflexivity.
Qed.

Lemma read_buffer_unanswered (w : world D) addr buf len :
  snd (eeprom_read_buffer w addr buf len) = buf.
Proof.
  unfold eeprom_read_buffer.
  destruct (i2c_write_blocking w AT24C256_ADDRESS _ true) as [w1 r1].
  pose proof (i2c_read_blocking_unanswered w1 AT24C256_ADDRESS buf len false)
    as [Hbuf _].
  destruct (i2c_read_blocking w1 AT24C256_ADDRESS buf len false)
    as [[w2 buf'] r2].
  exact Hbuf.
Qed.

End SilentReads.

(** X11.  A read that is not acknowledged is not reported.  On a bus that
    acknowledges no read, [eeprom_read_buffer] hands the caller's buffer
    back as it was, [eeprom_read_byte] returns 0, and
    [eeprom_update_byte addr 0] therefore ends without writing, for every
    budget. *)
Theorem unanswered_read_goes_unreported
        (D : Type) (B : Bus D) (dummy : Z) (w : world D) (addr : Z) :
  (forall (d : D) a len nostop, snd (bus_read d a len nostop) = None) ->
  (forall buf len, snd (eeprom_read_buffer w addr buf len) = buf)
  /\ snd (eeprom_read_byte w addr) = 0
  /\ (forall fuel,
         eeprom_update_byte dummy fuel w addr 0
         = Some (fst (eeprom_read_byte w addr))).
Proof.
  intros Hnack.
  assert (Hbyte : snd (eeprom_read_byte w addr) = 0).
  { rewrite read_byte_as_read_buffer. cbn [snd].
    rewrite (read_buffer_unanswered Hnack). reflexivity. }
  split; [intros buf len; apply (read_buffer_unanswered Hnack)|].
  split; [exact Hbyte|].
  intros fuel. unfold eeprom_update_byte.
  destruct (eeprom_read_byte w addr) as [w1 old_val].
  cbn [fst snd] in *. subst old_val. reflexivity.
Qed.

Lemma unanswered_read_goes_unreported_witness :
  (forall buf len,
      snd (eeprom_read_buffer (mkWorld Unplugged.nothing []) 40 buf len) = buf)
  /\ snd (eeprom_read_byte (mkWorld Unplugged.nothing []) 40) = 0
  /\ (forall fuel,
         eeprom_update_byte 0 fuel (mkWorld Unplugged.nothing []) 40 0
         = Some (fst (eeprom_read_byte (mkWorld Unplugged.nothing []) 40))).
Proof.
  apply (unanswered_read_goes_unreported Unplugged.device Unplugged.bus 0
           (mkWorld Unplugged.nothing []) 40).
  intros d a len nostop. reflexivity.
Defined.

Lemma write_busy m p k t src nostop :
  At24c256.write (At24c256.mkDevice m p (S k) t) AT24C256_ADDRESS src nostop
  = (At24c256.mkDevice m p k t, PICO_ERROR_GENERIC).
Proof. reflexivity. Qed.

(** X12.  A refused write is lost without notice.  [eeprom_write_byte]
    does not look at what the write transaction returned: when the
    AT24C256 is still busy at the call, the write is refused, the barrier
    then waits the device out, and the call returns with every cell as it
    was. *)
Theorem write_to_busy_device_is_dropped
        (dummy : Z) (fuel k : nat) (w : world At24c256.device)
        (addr data : Z) :
  At24c256.busy (dev w) = S k ->
  (k < fuel)%nat ->
  exists w',
    eeprom_write_byte dummy fuel w addr data = Some w'
    /\ At24c256.cells (dev w') = At24c256.cells (dev w)
    /\ At24c256.busy (dev w') = O
    /\ data_writes (log w')
       = data_writes (log w)
         ++ [(Z.land (Z.shiftr addr 8) 0xFF * 256 + Z.land addr 0xFF,
              [data])].
Proof.
  destruct w as [[m p b t] l]. cbn [dev At24c256.busy At24c256.cells log].
  intros -> Hfuel.
  unfold eeprom_write_byte, i2c_write_blocking.
  cbn [bus_write At24c256.bus dev log]. rewrite write_busy.
  match goal with
  | |- context [eeprom_wait_ready dummy fuel ?w1] =>
      destruct (At24c256Facts.wait_ready_returns dummy k fuel w1 eq_refl Hfuel)
        as (w' & Hrun & Hdev);
      destruct (eeprom_wait_ready_barrier dummy fuel w1 w' Hrun)
        as (evs & Hlog & Hbar)
  end.
  exists w'. split; [exact Hrun|].
  rewrite Hdev. cbn [dev At24c256.cells At24c256.busy].
  split; [reflexivity|]. split; [reflexivity|].
  rewrite Hlog. cbn [log].
  rewrite !data_writes_app, (data_writes_barrier dummy evs Hbar), app_nil_r.
  reflexivity.
Qed.

Lemma write_to_busy_device_is_dropped_witness :
  exists w',
    eeprom_write_byte 0 10 (mkWorld (At24c256.mkDevice (fun _ => 0xFF) 0 2 3) [])
                      40 0xAB = Some w'
    /\ At24c256.cells (dev w') = (fun _ => 0xFF)
    /\ At24c256.busy (dev w') = O
    /\ data_writes (log w')
       = [] ++ [(Z.land (Z.shiftr 40 8) 0xFF * 256 + Z.land 40 0xFF, [0xAB])].
Proof.
  apply (write_to_busy_device_is_dropped 0 10 1
           (mkWorld (At24c256.mkDevice (fun _ => 0xFF) 0 2 3) []) 40 0xAB).
  - reflexivity.
  - lia.
Defined.

(** ** Updating a byte twice *)

Lemma data_writes_of_read_buffer {D : Type} {B : Bus D}
      (w : world D) addr buf len :
  data_writes (log (fst (eeprom_read_buffer w addr buf len)))
  = data_writes (log w).
Proof.
  destruct (read_buffer_log w addr buf len) as (r1 & r2 & Hlog).
  rewrite Hlog, data_writes_app. cbn [data_writes data_write].
  apply app_nil_r.
Qed.

(** X13.  Updating twice writes once at most.  On an idle AT24C256, after
    [eeprom_update_byte addr v] the cell holds [v] and every other cell is
    as before; the same call made again puts no data-carrying write on the
    bus and changes no cell. *)
Theorem update_byte_twice_writes_once
        (dummy : Z) (fuel : nat) (w : world At24c256.device)
        (addr v : Z) :
  At24c256.busy (dev w) = O ->
  (At24c256.t_wr (dev w) < fuel)%nat ->
  0 <= addr < At24c256.CAPACITY ->
  exists w1 w2,
    eeprom_update_byte dummy fuel w addr v = Some w1
    /\ At24c256.cells (dev w1) addr = v
    /\ (forall x, x <> addr ->
                  At24c256.cells (dev w1) x = At24c256.cells (dev w) x)
    /\ eeprom_update_byte dummy fuel w1 addr v = Some w2
    /\ data_writes (log w2) = data_writes (log w1)
    /\ At24c256.cells (dev w2) = At24c256.cells (dev w1).
Proof.
  intros Hbusy Hfuel Haddr.
  assert (Hfirst :
    exists w1,
      eeprom_update_byte dummy fuel w addr v = Some w1
      /\ At24c256.cells (dev w1) addr = v
      /\ (forall x, x <> addr ->
                    At24c256.cells (dev w1) x = At24c256.cells (dev w) x)
      /\ At24c256.busy (dev w1) = O
      /\ At24c256.t_wr (dev w1) = At24c256.t_wr (dev w)).
  { unfold eeprom_update_byte.
    destruct (ByteOnDevice.read_byte_ready w addr Hbusy Haddr)
      as (Hold & Hc & Hb & Ht).
    destruct (eeprom_read_byte w addr) as [wr old_val].
    cbn [fst snd] in *. subst old_val.
    destruct (Z.eqb_spec (At24c256.cells (dev w) addr) v) as [Heq|Hne];
      cbn [negb].
    - exists wr. rewrite Hc. repeat split; auto.
    - rewrite <- Ht in Hfuel.
      destruct (write_byte_ready_state dummy fuel wr addr v Hb Hfuel Haddr)
        as (w1 & Hrun & Hc1 & Hb1 & Ht1).
      exists w1. split; [exact Hrun|]. rewrite Hc1, Hc.
      unfold At24c256.store. rewrite Z.eqb_refl.
      split; [reflexivity|]. split; [|split; [exact Hb1 | congruence]].
      intros x Hx. destruct (Z.eqb_spec x addr); [contradiction|reflexivity]. }
  destruct Hfirst as (w1 & Hrun1 & Hcell & Hframe & Hb1 & Ht1).
  exists w1.
  unfold eeprom_update_byte at 2.
  destruct (ByteOnDevice.read_byte_ready w1 addr Hb1 Haddr)
    as (Hold & Hc & _).
  pose proof (read_byte_as_read_buffer w1 addr) as Hrb.
  pose proof (data_writes_of_read_buffer w1 addr [0] 1) as Hdw.
  destruct (eeprom_read_byte w1 addr) as [w2 old_val].
  injection Hrb as Hw2 _. rewrite <- Hw2 in Hdw.
  cbn [fst snd] in *. subst old_val.
  rewrite Hcell, Z.eqb_refl. cbn [negb].
  exists w2. repeat split; auto.
Qed.

Lemma update_byte_twice_writes_once_witness :
  exists w1 w2,
    eeprom_update_byte 0 10 w0 100 0xAB = Some w1
    /\ At24c256.cells (dev w1) 100 = 0xAB
    /\ (forall x, x <> 100 ->
                  At24c256.cells (dev w1) x = At24c256.cells (dev w0) x)
    /\ eeprom_update_byte 0 10 w1 100 0xAB = Some w2
    /\ data_writes (log w2) = data_writes (log w1)
    /\ At24c256.cells (dev w2) = At24c256.cells (dev w1).
Proof.
  apply (update_byte_twice_writes_once 0 10 w0 100 0xAB).
  - reflexivity.
  - simpl. lia.
  - unfold At24c256.CAPACITY. lia.
Defined.

(** ** The WS2812 example: colour words *)

Lemma lor_mul_add (hi lo n : Z) :
  0 <= n -> 0 <= lo < 2 ^ n -> Z.lor (hi * 2 ^ n) lo = hi * 2 ^ n + lo.
Proof.
  intros Hn Hlo.
  assert (Hdisjoint : Z.land (hi * 2 ^ n) lo = 0).
  { rewrite <- Z.shiftl_mul_pow2 by exact Hn.
    rewrite <- (Z.mod_small lo (2 ^ n)) by exact Hlo.
    rewrite <- Z.land_ones by exact Hn.
    apply Z.bits_inj'. intros i Hi.
    rewrite !Z.land_spec, Z.bits_0.
    destruct (Z.lt_ge_cases i n) as [Hlt|Hge].
    - rewrite Z.shiftl_spec_low by exact Hlt. reflexivity.
    - rewrite Z.ones_spec_high by lia.
      rewrite !Bool.andb_false_r. reflexivity. }
  rewrite <- Z.lxor_lor by exact Hdisjoint.
  symmetry. apply Z.add_nocarry_lxor. exact Hdisjoint.
Qed.

Lemma urgbw_u32_value (r g b w : Z) :
  0 <= r < 256 -> 0 <= g < 256 -> 0 <= b < 256 -> 0 <= w < 256 ->
  urgbw_u32 r g b w = w * 16777216 + g * 65536 + r * 256 + b.
Proof.
  intros Hr Hg Hb Hw. unfold urgbw_u32.
  rewrite !Z.shiftl_mul_pow2 by lia.
  change (2 ^ 8) with 256. change (2 ^ 16) with 65536.
  change (2 ^ 24) with 16777216.
  rewrite (Z.lor_comm (r * 256)).
  change 65536 with (2 ^ 16) at 1.
  rewrite lor_mul_add by (change (2 ^ 16) with 65536; lia).
  change (2 ^ 16) with 65536.
  rewrite (Z.lor_comm _ (w * 16777216)).
  change 16777216 with (2 ^ 24) at 1.
  rewrite lor_mul_add by (change (2 ^ 24) with 16777216; lia).
  change (2 ^ 24) with 16777216.
  replace (w * 16777216 + (g * 65536 + r * 256))
    with ((w * 65536 + g * 256 + r) * 2 ^ 8)
    by (change (2 ^ 8) with 256; lia).
  rewrite lor_mul_add by (change (2 ^ 8) with 256; lia).
  change (2 ^ 8) with 256. lia.
Qed.

Lemma urgb_u32_value (r g b : Z) :
  0 <= r < 256 -> 0 <= g < 256 -> 0 <= b < 256 ->
  urgb_u32 r g b = g * 65536 + r * 256 + b.
Proof.
  intros Hr Hg Hb. unfold urgb_u32.
  rewrite !Z.shiftl_mul_pow2 by lia.
  change (2 ^ 8) with 256. change (2 ^ 16) with 65536.
  rewrite (Z.lor_comm (r * 256)).
  change 65536 with (2 ^ 16) at 1.
  rewrite lor_mul_add by (change (2 ^ 16) with 65536; lia).
  change (2 ^ 16) with 65536.
  replace (g * 65536 + r * 256) with ((g * 256 + r) * 2 ^ 8)
    by (change (2 ^ 8) with 256; lia).
  rewrite lor_mul_add by (change (2 ^ 8) with 256; lia).
  change (2 ^ 8) with 256. lia.
Qed.

Lemma put_pixel_word (pio : pio_tx) (sm v : Z) :
  put_pixel pio sm v = pio ++ [(sm, (v * 256) mod 4294967296)].
Proof.
  unfold put_pixel, pio_sm_put_blocking.
  rewrite Z.shiftl_mul_pow2 by lia. reflexivity.
Qed.

Lemma wire_bytes_of_grb (g r b : Z) :
  0 <= r < 256 -> 0 <= g < 256 -> 0 <= b < 256 ->
  wire_bytes ((g * 65536 + r * 256 + b) * 256) = [g; r; b; 0].
Proof.
  intros Hr Hg Hb. unfold wire_bytes.
  rewrite !Z.shiftr_div_pow2 by lia.
  change (2 ^ 24) with 16777216. change (2 ^ 16) with 65536.
  change (2 ^ 8) with 256.
  repeat f_equal; Z.div_mod_to_equations; lia.
Qed.

(** X14.  The colour word.  For colour bytes [r], [g], [b],
    [put_pixel (urgb_u32 r g b)] pushes one word to the state machine's
    FIFO, and the bytes of that word, first to last, are green, red, blue
    and 0: the order the WS2812 takes them in. *)
Theorem put_pixel_sends_green_red_blue
        (pio : pio_tx) (sm r g b : Z) :
  0 <= r < 256 -> 0 <= g < 256 -> 0 <= b < 256 ->
  exists word,
    put_pixel pio sm (urgb_u32 r g b) = pio ++ [(sm, word)]
    /\ 0 <= word < 2 ^ 32
    /\ wire_bytes word = [g; r; b; 0].
Proof.
  intros Hr Hg Hb.
  exists ((g * 65536 + r * 256 + b) * 256).
  rewrite put_pixel_word, urgb_u32_value by assumption.
  rewrite Z.mod_small by lia.
  split; [reflexivity|]. split; [lia|].
  apply wire_bytes_of_grb; assumption.
Qed.

Lemma put_pixel_sends_green_red_blue_witness :
  exists word,
    put_pixel [] 0 (urgb_u32 0x12 0x34 0x56) = [] ++ [(0, word)]
    /\ 0 <= word < 2 ^ 32
    /\ wire_bytes word = [0x34; 0x12; 0x56; 0].
Proof.
  apply (put_pixel_sends_green_red_blue [] 0 0x12 0x34 0x56); lia.
Defined.

(** X15.  The white byte does not reach the wire.  [put_pixel] shifts the
    32-bit word left by 8, so for a word built by [urgbw_u32] the white
    byte in bits 24 to 31 is shifted out: the word pushed is the one
    pushed for [urgb_u32 r g b], whatever [w] is. *)
Theorem put_pixel_drops_the_white_byte
        (pio : pio_tx) (sm r g b w : Z) :
  0 <= r < 256 -> 0 <= g < 256 -> 0 <= b < 256 -> 0 <= w < 256 ->
  put_pixel pio sm (urgbw_u32 r g b w) = put_pixel pio sm (urgb_u32 r g b).
Proof.
  intros Hr Hg Hb Hw.
  rewrite !put_pixel_word, urgbw_u32_value, urgb_u32_value by assumption.
  do 3 f_equal.
  Z.div_mod_to_equations. lia.
Qed.

Lemma put_pixel_drops_the_white_byte_witness :
  put_pixel [] 0 (urgbw_u32 1 2 3 0xff) = put_pixel [] 0 (urgb_u32 1 2 3).
Proof.
  apply (put_pixel_drops_the_white_byte [] 0 1 2 3 0xff); lia.
Defined.

Example urgbw_u32_keeps_white : urgbw_u32 1 2 3 0xff = 0xff020103.
Proof. reflexivity. Qed.

(** ** The WS2812 example: patterns *)

Lemma greys_loop_levels (len : nat) :
  forall (pio : pio_tx) (sm t : Z),
    0 <= t < 100 ->
    greys_loop pio sm len t 100
    = pio ++ map (fun i => (sm, ((t + Z.of_nat i) mod 100) * 0x10101 * 256))
                 (seq 0 len).
Proof.
  induction len as [|len IH]; intros pio sm t Ht.
  - simpl. rewrite app_nil_r. reflexivity.
  - cbn [greys_loop]. rewrite put_pixel_word.
    change (2 ^ 32) with 4294967296.
    rewrite (Z.mod_small (t * 65793)) by lia.
    rewrite (Z.mod_small (t * 65793 * 256)) by lia.
    rewrite (Z.mod_small (t + 1)) by lia.
    rewrite IH by (destruct (Z.leb_spec 100 (t + 1)); lia).
    rewrite <- app_assoc. f_equal.
    cbn [seq map app]. f_equal.
    + rewrite Z.add_0_r, Z.mod_small by lia. reflexivity.
    + rewrite <- seq_shift, map_map. apply map_ext. intros i.
      f_equal. f_equal. f_equal.
      destruct (Z.leb_spec 100 (t + 1)).
      * assert (t = 99) by lia. subst t.
        rewrite Nat2Z.inj_succ.
        replace (99 + Z.succ (Z.of_nat i)) with (Z.of_nat i + 1 * 100) by lia.
        rewrite Z.mod_add by lia. reflexivity.
      * f_equal. lia.
Qed.

Lemma nth_map_seq (f : nat -> Z) (len i : nat) (d : Z) :
  (i < len)%nat -> nth i (map f (seq 0 len)) d = f i.
Proof.
  intros Hi.
  rewrite (nth_indep _ d (f O)) by (rewrite length_map, length_seq; exact Hi).
  rewrite (map_nth f), seq_nth by exact Hi. reflexivity.
Qed.

(** X16.  Greys stay dim.  For every tick [t], [pattern_greys] pushes
    exactly [len] words; pixel [i] is the grey of level
    [(t mod 100 + i) mod 100], sent as that level in each of the three
    colour bytes, so no colour byte ever reaches 100. *)
Theorem pattern_greys_stays_below_100
        (pio : pio_tx) (sm : Z) (len : nat) (t : Z) :
  0 <= t < 2 ^ 32 ->
  exists words,
    pattern_greys pio sm len t = pio ++ map (fun word => (sm, word)) words
    /\ List.length words = len
    /\ forall i,
        (i < len)%nat ->
        let level := (t mod 100 + Z.of_nat i) mod 100 in
        0 <= level < 100
        /\ wire_bytes (nth i words 0) = [level; level; level; 0].
Proof.
  intros Ht. unfold pattern_greys.
  pose proof (Z.mod_pos_bound t 100 ltac:(lia)) as Hm.
  rewrite greys_loop_levels by exact Hm.
  exists (map (fun i => ((t mod 100 + Z.of_nat i) mod 100) * 0x10101 * 256)
              (seq 0 len)).
  split; [rewrite map_map; reflexivity|].
  split; [rewrite length_map, length_seq; reflexivity|].
  intros i Hi. cbv zeta.
  set (level := (t mod 100 + Z.of_nat i) mod 100).
  pose proof (Z.mod_pos_bound (t mod 100 + Z.of_nat i) 100 ltac:(lia)) as Hl.
  fold level in Hl. split; [exact Hl|].
  rewrite nth_map_seq by exact Hi. fold level.
  replace (level * 65793 * 256)
    with ((level * 65536 + level * 256 + level) * 256) by lia.
  apply wire_bytes_of_grb; lia.
Qed.

Lemma pattern_greys_stays_below_100_witness :
  exists words,
    pattern_greys [] 0 4 198 = [] ++ map (fun word => (0, word)) words
    /\ List.length words = 4%nat
    /\ forall i,
        (i < 4)%nat ->
        let level := (198 mod 100 + Z.of_nat i) mod 100 in
        0 <= level < 100
        /\ wire_bytes (nth i words 0) = [level; level; level; 0].
Proof.
  apply (pattern_greys_stays_below_100 [] 0 4 198). lia.
Defined.

Example pattern_greys_wraps_at_100 :
  map (fun p => wire_bytes (snd p)) (pattern_greys [] 0 4 198)
  = [[98; 98; 98; 0]; [99; 99; 99; 0]; [0; 0; 0; 0]; [1; 1; 1; 0]].
Proof. reflexivity. Qed.

Lemma snakes_step_word (sm t : Z) (pio : pio_tx) (i : nat) :
  exists word,
    snakes_step sm t pio i = pio ++ [(sm, word)]
    /\ In (wire_bytes word)
          [[0; 0xff; 0; 0]; [0xff; 0; 0; 0]; [0; 0; 0xff; 0]; [0; 0; 0; 0]].
Proof.
  unfold snakes_step. cbv zeta.
  set (x := ((Z.of_nat i + Z.shiftr t 1) mod 2 ^ 32) mod 64).
  destruct (x <? 10);
    [|destruct ((15 <=? x) && (x <? 25));
      [|destruct ((30 <=? x) && (x <? 40))]];
    eexists; (split; [reflexivity|]); cbn; auto.
Qed.

Lemma snakes_fold (sm t : Z) (idx : list nat) :
  forall pio : pio_tx,
  exists words,
    fold_left (snakes_step sm t) idx pio
    = pio ++ map (fun word => (sm, word)) words
    /\ List.length words = List.length idx
    /\ Forall (fun word =>
                 In (wire_bytes word)
                    [[0; 0xff; 0; 0]; [0xff; 0; 0; 0]; [0; 0; 0xff; 0];
                     [0; 0; 0; 0]])
              words.
Proof.
  induction idx as [|i idx IH]; intros pio.
  - exists []. simpl. rewrite app_nil_r. repeat split. constructor.
  - cbn [fold_left].
    destruct (snakes_step_word sm t pio i) as (word & -> & Hin).
    destruct (IH (pio ++ [(sm, word)])) as (words & Hrun & Hlen & Hall).
    exists (word :: words).
    split; [rewrite Hrun, <- app_assoc; reflexivity|].
    split; [simpl; rewrite Hlen; reflexivity|].
    constructor; assumption.
Qed.

Lemma snakes_step_depends_on_half_tick (sm t t' : Z) (p : pio_tx) (i : nat) :
  Z.shiftr t 1 mod 64 = Z.shiftr t' 1 mod 64 ->
  snakes_step sm t p i = snakes_step sm t' p i.
Proof.
  intros Hsame. unfold snakes_step.
  replace (((Z.of_nat i + Z.shiftr t' 1) mod 2 ^ 32) mod 64)
    with (((Z.of_nat i + Z.shiftr t 1) mod 2 ^ 32) mod 64);
    [reflexivity|].
  change (2 ^ 32) with 4294967296.
  generalize dependent (Z.shiftr t' 1). generalize (Z.shiftr t 1).
  intros h h' Hsame.
  Z.div_mod_to_equations. lia.
Qed.

Lemma snakes_fold_depends_on_half_tick (sm t t' : Z) (idx : list nat) :
  Z.shiftr t 1 mod 64 = Z.shiftr t' 1 mod 64 ->
  forall p : pio_tx,
    fold_left (snakes_step sm t) idx p = fold_left (snakes_step sm t') idx p.
Proof.
  intros Hsame. induction idx as [|i idx IH]; intros p; [reflexivity|].
  cbn [fold_left].
  rewrite (snakes_step_depends_on_half_tick sm t t' p i Hsame). apply IH.
Qed.

Lemma half_tick_after_128 (t : Z) :
  Z.shiftr ((t + 128) mod 2 ^ 32) 1 mod 64 = Z.shiftr t 1 mod 64.
Proof.
  rewrite !Z.shiftr_div_pow2 by lia.
  change (2 ^ 1) with 2. change (2 ^ 32) with 4294967296.
  Z.div_mod_to_equations. lia.
Qed.

(** X17.  Snakes.  For every tick, [pattern_snakes] pushes exactly [len]
    words, each pure red, pure green, pure blue or off.  The picture
    depends on the tick only through [(t >> 1) mod 64]: two ticks with the
    same value there give the same words; so the picture comes back 128
    ticks later, also when the 32-bit tick wraps round in between. *)
Theorem pattern_snakes_colours_and_period
        (pio : pio_tx) (sm : Z) (len : nat) (t : Z) :
  (exists words,
      pattern_snakes pio sm len t = pio ++ map (fun word => (sm, word)) words
      /\ List.length words = len
      /\ Forall (fun word =>
                   In (wire_bytes word)
                      [[0; 0xff; 0; 0]; [0xff; 0; 0; 0]; [0; 0; 0xff; 0];
                       [0; 0; 0; 0]])
                words)
  /\ (forall t',
         Z.shiftr t 1 mod 64 = Z.shiftr t' 1 mod 64 ->
         pattern_snakes pio sm len t = pattern_snakes pio sm len t')
  /\ pattern_snakes pio sm len ((t + 128) mod 2 ^ 32)
     = pattern_snakes pio sm len t.
Proof.
  split; [|split].
  - unfold pattern_snakes.
    destruct (snakes_fold sm t (seq 0 len) pio) as (words & Hrun & Hlen & Hall).
    exists words. rewrite length_seq in Hlen. auto.
  - intros t' Hsame. unfold pattern_snakes.
    apply snakes_fold_depends_on_half_tick. exact Hsame.
  - unfold pattern_snakes.
    apply snakes_fold_depends_on_half_tick. apply half_tick_after_128.
Qed.

Lemma pattern_snakes_colours_and_period_witness :
  pattern_snakes [] 0 4 4294967295 = pattern_snakes [] 0 4 (63 * 2).
Proof.
  apply (proj1 (proj2 (pattern_snakes_colours_and_period [] 0 4 4294967295))
           (63 * 2)).
  reflexivity.
Defined.

Example pattern_snakes_across_the_wrap :
  pattern_snakes [] 0 4 ((4294967295 + 128) mod 2 ^ 32)
  = pattern_snakes [] 0 4 4294967295
  /\ map (fun p => wire_bytes (snd p)) (pattern_snakes [] 0 4 4294967295)
     = [[0; 0; 0; 0]; [0; 0xff; 0; 0]; [0; 0xff; 0; 0]; [0; 0xff; 0; 0]].
Proof. split; reflexivity. Qed.

Example pattern_snakes_at_tick_16 :
  map (fun p => wire_bytes (snd p)) (pattern_snakes [] 0 4 16)
  = [[0; 0xff; 0; 0]; [0; 0xff; 0; 0]; [0; 0; 0; 0]; [0; 0; 0; 0]].
Proof. reflexivity. Qed.

Section RandomFacts.
Variable rand_values : nat -> Z.

Lemma sparkle_loop_words (len : nat) :
  forall (pio : pio_tx) (calls : nat) (sm : Z),
    sparkle_loop rand_values pio calls sm len
    = (pio ++ map (fun i =>
                     (sm, if Z.rem (rand_values (calls + i)) 16 =? 0
                          then 0xffffff00 else 0))
                  (seq 0 len),
       (calls + len)%nat).
Proof.
  induction len as [|len IH]; intros pio calls sm.
  - simpl. rewrite app_nil_r, Nat.add_0_r. reflexivity.
  - cbn [sparkle_loop rand]. rewrite IH, put_pixel_word.
    rewrite <- app_assoc. f_equal; [|lia].
    f_equal. cbn [seq map app]. f_equal.
    + rewrite Nat.add_0_r.
      destruct (Z.rem (rand_values calls) 16 =? 0); reflexivity.
    + rewrite <- seq_shift, map_map. apply map_ext. intros i.
      rewrite Nat.add_succ_r. reflexivity.
Qed.

Lemma random_loop_words (len : nat) :
  forall (pio : pio_tx) (calls : nat) (sm : Z),
    random_loop rand_values pio calls sm len
    = (pio ++ map (fun i =>
                     (sm, (rand_values (calls + i) mod 2 ^ 32 * 256)
                          mod 2 ^ 32))
                  (seq 0 len),
       (calls + len)%nat).
Proof.
  induction len as [|len IH]; intros pio calls sm.
  - simpl. rewrite app_nil_r, Nat.add_0_r. reflexivity.
  - cbn [random_loop rand]. rewrite IH, put_pixel_word.
    rewrite <- app_assoc. f_equal; [|lia].
    f_equal. cbn [seq map app]. f_equal.
    + rewrite Nat.add_0_r. reflexivity.
    + rewrite <- seq_shift, map_map. apply map_ext. intros i.
      rewrite Nat.add_succ_r. reflexivity.
Qed.

End RandomFacts.

(** X18.  The random patterns.  On a tick that is not a multiple of 8,
    [pattern_random] and [pattern_sparkle] push nothing and draw no random
    number.  On a multiple of 8 each pushes exactly [len] words and draws
    exactly one random number per word, in order; [pattern_sparkle] lights
    pixel [i] fully (0xffffff00 on the wire) when the [i]-th number drawn
    is a multiple of 16 and sends 0 otherwise. *)
Theorem random_patterns_draw_once_per_pixel
        (rand_values : nat -> Z) (pio : pio_tx) (calls : nat) (sm : Z)
        (len : nat) (t : Z) :
  (t mod 8 <> 0 ->
   pattern_random rand_values pio calls sm len t = (pio, calls)
   /\ pattern_sparkle rand_values pio calls sm len t = (pio, calls))
  /\ (t mod 8 = 0 ->
      pattern_random rand_values pio calls sm len t
      = (pio ++ map (fun i =>
                       (sm, (rand_values (calls + i)%nat mod 2 ^ 32 * 256)
                            mod 2 ^ 32))
                    (seq 0 len),
         (calls + len)%nat)
      /\ pattern_sparkle rand_values pio calls sm len t
         = (pio ++ map (fun i =>
                          (sm, if Z.rem (rand_values (calls + i)%nat) 16 =? 0
                               then 0xffffff00 else 0))
                       (seq 0 len),
            (calls + len)%nat)).
Proof.
  unfold pattern_random, pattern_sparkle. split; intros Ht.
  - apply Z.eqb_neq in Ht. rewrite Ht. split; reflexivity.
  - apply Z.eqb_eq in Ht. rewrite Ht. cbn [negb].
    split; [apply random_loop_words | apply sparkle_loop_words].
Qed.

Lemma random_patterns_draw_once_per_pixel_witness :
  pattern_sparkle (fun n => Z.of_nat (16 * n)) [] 3 0 4 5 = ([], 3%nat)
  /\ pattern_sparkle (fun n => Z.of_nat n) [] 15 0 4 16
     = ([] ++ map (fun i =>
                     (0, if Z.rem (Z.of_nat (15 + i)) 16 =? 0
                         then 0xffffff00 else 0))
                  (seq 0 4),
        (15 + 4)%nat).
Proof.
  split.
  - apply (proj1 (random_patterns_draw_once_per_pixel
                    (fun n => Z.of_nat (16 * n)) [] 3 0 4 5)).
    vm_compute. discriminate.
  - apply (proj2 (random_patterns_draw_once_per_pixel
                    (fun n => Z.of_nat n) [] 15 0 4 16)).
    reflexivity.
Defined.

Example pattern_sparkle_lights_multiples_of_16 :
  pattern_sparkle (fun n => Z.of_nat n) [] 15 0 4 16
  = ([(0, 0); (0, 0xffffff00); (0, 0); (0, 0)], 19%nat).
Proof. reflexivity. Qed.

(** ** The PIO blink example *)

(** X19.  The blink count.  [blink_pin_forever] sets the program up,
    enables the state machine and then writes one count [n] to its FIFO.
    Let [d] be [2 * freq] as the code computes it, in 32 bits; the code
    divides by it, so take [d] other than 0.  When the clock is at least
    [3 * d], [n + 3] is [clk / d] rounded down, the clock cycles of half a
    period when the doubling did not wrap; when the clock is below
    [3 * d] the subtraction wraps and [n] is one of the three largest
    32-bit values. *)
Theorem blink_count_is_the_half_period
        (clk_sys_hz : Z) (pio : list pio_event) (sm offset pin freq : Z) :
  (2 * freq) mod 2 ^ 32 <> 0 ->
  0 <= clk_sys_hz < 2 ^ 32 ->
  let d := (2 * freq) mod 2 ^ 32 in
  exists n,
    blink_pin_forever clk_sys_hz pio sm offset pin freq
    = pio ++ [BlinkProgramInit sm offset pin; SmSetEnabled sm true;
              TxfWrite sm n]
    /\ 0 <= n < 2 ^ 32
    /\ (3 * d <= clk_sys_hz ->
        d * (n + 3) <= clk_sys_hz < d * (n + 4))
    /\ (clk_sys_hz < 3 * d -> 2 ^ 32 - 3 <= n)
    /\ (0 <= 2 * freq < 2 ^ 32 -> d = 2 * freq).
Proof.
  intros Hd Hclk d. unfold blink_pin_forever. fold d.
  eexists. split; [reflexivity|].
  assert (Hdpos : 1 <= d < 2 ^ 32).
  { pose proof (Z.mod_pos_bound (2 * freq) (2 ^ 32) ltac:(lia)).
    subst d. lia. }
  change (2 ^ 32) with 4294967296 in *.
  pose proof (Z.div_mod clk_sys_hz d ltac:(lia)) as Hdiv.
  pose proof (Z.mod_pos_bound clk_sys_hz d ltac:(lia)) as Hrem.
  assert (Hq : 0 <= clk_sys_hz / d <= clk_sys_hz).
  { split; [apply Z.div_pos; lia|].
    apply Z.div_le_upper_bound; nia. }
  set (q := clk_sys_hz / d) in *.
  split; [apply Z.mod_pos_bound; lia|]. split; [|split].
  - intros Hfast.
    assert (3 <= q) by nia.
    rewrite Z.mod_small by lia. nia.
  - intros Hslow.
    assert (q < 3) by nia.
    replace (q - 3) with ((q - 3 + 4294967296) + (-1) * 4294967296) by lia.
    rewrite Z.mod_add by lia. rewrite Z.mod_small by lia. lia.
  - intros Hnowrap. subst d. apply Z.mod_small. exact Hnowrap.
Qed.

Lemma blink_count_is_the_half_period_witness :
  exists n,
    blink_pin_forever 125000000 [] 0 0 6 2147483649
    = [] ++ [BlinkProgramInit 0 0 6; SmSetEnabled 0 true; TxfWrite 0 n]
    /\ 0 <= n < 2 ^ 32
    /\ (3 * ((2 * 2147483649) mod 2 ^ 32) <= 125000000 ->
        (2 * 2147483649) mod 2 ^ 32 * (n + 3) <= 125000000
        < (2 * 2147483649) mod 2 ^ 32 * (n + 4))
    /\ (125000000 < 3 * ((2 * 2147483649) mod 2 ^ 32) -> 2 ^ 32 - 3 <= n)
    /\ (0 <= 2 * 2147483649 < 2 ^ 32 ->
        (2 * 2147483649) mod 2 ^ 32 = 2 * 2147483649).
Proof.
  apply (blink_count_is_the_half_period 125000000 [] 0 0 6 2147483649).
  - vm_compute. discriminate.
  - lia.
Defined.

Example blink_with_a_wrapped_frequency :
  blink_pin_forever 125000000 [] 0 0 6 2147483649
  = [BlinkProgramInit 0 0 6; SmSetEnabled 0 true; TxfWrite 0 62499997].
Proof. reflexivity. Qed.

Example blink_4_hz_at_125_mhz :
  blink_pin_forever 125000000 [] 0 0 6 4
  = [BlinkProgramInit 0 0 6; SmSetEnabled 0 true; TxfWrite 0 15624997].
Proof. reflexivity. Qed.
